(** * HTU21D driver (htu21d.c): a shallow embedding and its properties

    The driver talks to one HTU21D humidity/temperature sensor over I2C.
    This file embeds

    - the checksum verifier [is_crc_valid] (unsigned 32-bit arithmetic on [Z]),
    - the bus-facing functions ([read_value], the user-register accessors,
      [htu21d_soft_reset], [htu21d_init]) as programs of a state monad over
      an arbitrary I2C back end, with a trace of every call that leaves the
      driver,
    - the two public conversions, with C [double] as IEEE-754 binary64
      (primitive floats) and C [float] as binary32 ([SpecFloat] at
      precision 24),

    and then proves the properties of these functions.  Part I holds the
    definitions, Part II the lemmas and theorems. *)

From Stdlib Require Import ZArith List Bool Lia String.
From Stdlib Require Import Floats Uint63.
Import ListNotations.

Local Open Scope Z_scope.

(** * Part I: definitions *)

(** ** Fixed-width unsigned integers *)

Module Word.

(** Value of a [w]-bit unsigned C object assigned the mathematical value [z]. *)
Definition wrap (w : Z) (z : Z) : Z := z mod 2 ^ w.

Definition u8 : Z -> Z := wrap 8.
Definition u16 : Z -> Z := wrap 16.
Definition u32 : Z -> Z := wrap 32.

End Word.

(** ** Bounded checks *)

(** [p] holds for the [n] integers from [i] on. *)
Fixpoint all_from (n : nat) (i : Z) (p : Z -> bool) : bool :=
  match n with
  | O => true
  | S n' => p i && all_from n' (i + 1) p
  end.

(** ** CRC verifier: [is_crc_valid] *)

Module Crc.

(** [for (int i = lo; i < lo + n; i++) body] over a loop state [S]. *)
Fixpoint for_range {S : Type} (n : nat) (i : Z) (body : Z -> S -> S) (s : S) : S :=
  match n with
  | O => s
  | Datatypes.S n' => for_range n' (i + 1) body (body i s)
  end.

(** [(uint32_t)0x988000]: x^8 + x^5 + x^4 + 1 padded with fifteen zeroes. *)
Definition divisor0 : Z := 0x988000.

(** One pass of the loop body; the loop state is [(row, divisor)]. *)
Definition crc_body (i : Z) (st : Z * Z) : Z * Z :=
  let '(row, divisor) := st in
  let row :=
    if Z.land row (Word.u32 (Z.shiftl 1 (23 - i))) =? 0
    then row
    else Z.lxor row divisor in
  (row, Z.shiftr divisor 1).

(** The value of [row] when the loop exits. *)
Definition crc_row (value crc : Z) : Z :=
  let row := Word.u32 (Z.shiftl value 8) in
  let row := Z.lor row crc in
  fst (for_range 16 0 crc_body (row, divisor0)).

Definition is_crc_valid (value crc : Z) : bool := crc_row value crc =? 0.

End Crc.

(** ** Polynomials over GF(2), for the statement of the CRC properties

    A polynomial is the non-negative integer whose bit [i] is the
    coefficient of x^i.  Addition is [Z.lxor]; these definitions are the
    reference the checksum code is compared with, they are not taken from
    the driver. *)

Module GF2.

(** The generator named in the source comment: x^8 + x^5 + x^4 + 1. *)
Definition generator : Z := 0x131.

Definition degree (p : Z) : Z := Z.log2 p.

(** Carry-less product of the low [n] coefficients of [q] with [g]. *)
Fixpoint clmul_bits (n : nat) (q g : Z) : Z :=
  match n with
  | O => 0
  | S k =>
      Z.lxor (if Z.testbit q (Z.of_nat k) then Z.shiftl g (Z.of_nat k) else 0)
             (clmul_bits k q g)
  end.

(** Product of two polynomials. *)
Definition clmul (q g : Z) : Z := clmul_bits (Z.to_nat (Z.log2 q + 1)) q g.

(** One step of the long division by [g]: cancel the coefficient of
    x^(deg g + k) of [m] with a shifted copy of [g]. *)
Definition cancel (g k m : Z) : Z :=
  if Z.testbit m (degree g + k) then Z.lxor m (Z.shiftl g k) else m.

(** Long division: cancel the coefficients of
    x^(deg g + n - 1), ..., x^(deg g) of [m], highest first. *)
Fixpoint mod_from (n : nat) (m g : Z) : Z :=
  match n with
  | O => m
  | S k => mod_from k (cancel g (Z.of_nat k) m) g
  end.

(** Remainder of [m] in the division by [g]. *)
Definition gf2_mod (m g : Z) : Z :=
  mod_from (Z.to_nat (degree m + 1 - degree g)) m g.

(** The remainder of a 16-bit data word followed by eight zero bits. *)
Definition word_rem (value : Z) : Z := mod_from 16 (Z.shiftl value 8) generator.

(** [g] divides [m]. *)
Definition divides (g m : Z) : Prop := exists q, 0 <= q /\ clmul q g = m.

End GF2.

(** ** Floating point

    C [double] is IEEE-754 binary64, C [float] binary32, both rounding to
    nearest even. *)

Module Ieee.

Definition double := PrimFloat.float.
Definition float32 := spec_float.

(** Conversion of a C [int] to [double] (exact below 2^53). *)
Definition d_of_int (z : Z) : double :=
  if z <? 0
  then PrimFloat.opp (PrimFloat.of_uint63 (Uint63.of_Z (- z)))
  else PrimFloat.of_uint63 (Uint63.of_Z z).

(** The decimal literal [num / den] as a [double]: the correctly rounded
    quotient of two exactly representable integers. *)
Definition d_lit (num den : Z) : double :=
  PrimFloat.div (d_of_int num) (d_of_int den).

(** Conversion [double] to [float]. *)
Definition f_of_double (x : double) : float32 :=
  match Prim2SF x with
  | S754_finite s m e => binary_round 24 128 s m e
  | y => y
  end.

(** Conversion of a C [int] to [float]. *)
Definition f_of_int (z : Z) : float32 := binary_normalize 24 128 z 0 false.

(** Equality test on [float32] values (same datum, not IEEE [==]). *)
Definition f_same (x y : float32) : bool :=
  match x, y with
  | S754_zero a, S754_zero b => Bool.eqb a b
  | S754_infinity a, S754_infinity b => Bool.eqb a b
  | S754_nan, S754_nan => true
  | S754_finite s m e, S754_finite s' m' e' =>
      Bool.eqb s s' && Pos.eqb m m' && Z.eqb e e'
  | _, _ => false
  end.

End Ieee.

(** ** ESP-IDF and FreeRTOS: what the driver sees of them

    The driver includes esp_err.h, driver/i2c.h and freertos/task.h of
    ESP-IDF; the numeric values below are the ones these headers give. *)

Module Esp.

Definition ESP_OK : Z := 0.
Definition ESP_FAIL : Z := -1.
Definition ESP_ERR_NO_MEM : Z := 0x101.
Definition ESP_ERR_INVALID_ARG : Z := 0x102.
Definition ESP_ERR_INVALID_STATE : Z := 0x103.
Definition ESP_ERR_TIMEOUT : Z := 0x107.

Definition I2C_MASTER_WRITE : Z := 0.
Definition I2C_MASTER_READ : Z := 1.
Definition I2C_MODE_MASTER : Z := 1.

Record i2c_config_t := {
  mode : Z;
  sda_io_num : Z;
  scl_io_num : Z;
  sda_pullup_en : Z;
  scl_pullup_en : Z;
  clk_speed : Z
}.

(** The contents of a command link ([i2c_cmd_handle_t]). *)
Inductive i2c_op :=
| I2cStart
| I2cWriteByte (data : Z) (ack_en : bool)
| I2cReadByte (ack : Z)
| I2cStop.

Inductive log_level := LogError | LogInfo.

(** Every call that leaves the driver, with what it returned. *)
Inductive event :=
| EvParamConfig (port : Z) (conf : i2c_config_t) (ret : Z)
| EvDriverInstall (port : Z) (mode : Z) (ret : Z)
| EvLinkCreate (ok : bool)
| EvCmdBegin (port : Z) (ops : list i2c_op) (ticks : Z) (ret : Z) (rx : list Z)
| EvLinkDelete
| EvDelay (ticks : Z)
| EvLog (lvl : log_level) (msg : string).

(** The back end: an I2C controller with whatever is wired to it, and
    the scheduler.  [i2c_cmd_link_create] answers [false] for NULL;
    [i2c_master_cmd_begin] also hands back the bytes stored through the
    pointers given to [i2c_master_read_byte]. *)
Record hal (B : Type) := {
  configTICK_RATE_HZ : Z;
  i2c_param_config : Z -> i2c_config_t -> B -> Z * B;
  i2c_driver_install : Z -> Z -> B -> Z * B;
  i2c_cmd_link_create : B -> bool * B;
  i2c_master_cmd_begin : Z -> list i2c_op -> Z -> B -> Z * list Z * B;
  vTaskDelay : Z -> B -> B
}.

Arguments configTICK_RATE_HZ {B}.
Arguments i2c_param_config {B}.
Arguments i2c_driver_install {B}.
Arguments i2c_cmd_link_create {B}.
Arguments i2c_master_cmd_begin {B}.
Arguments vTaskDelay {B}.

End Esp.

(** ** The driver *)

Module Htu21d.

Import Esp.

(** *** htu21d.h (the header as README.md lists it) *)

Definition HTU21D_ADDR : Z := 0x40.

Definition TRIGGER_TEMP_MEASURE_HOLD : Z := 0xE3.
Definition TRIGGER_HUMD_MEASURE_HOLD : Z := 0xE5.
Definition TRIGGER_TEMP_MEASURE_NOHOLD : Z := 0xF3.
Definition TRIGGER_HUMD_MEASURE_NOHOLD : Z := 0xF5.
Definition WRITE_USER_REG : Z := 0xE6.
Definition READ_USER_REG : Z := 0xE7.
Definition SOFT_RESET : Z := 0xFE.

Definition HTU21D_ERR_OK : Z := 0x00.
Definition HTU21D_ERR_CONFIG : Z := 0x01.
Definition HTU21D_ERR_INSTALL : Z := 0x02.
Definition HTU21D_ERR_NOTFOUND : Z := 0x03.
Definition HTU21D_ERR_INVALID_ARG : Z := 0x04.
Definition HTU21D_ERR_FAIL : Z := 0x05.
Definition HTU21D_ERR_INVALID_STATE : Z := 0x06.
Definition HTU21D_ERR_TIMEOUT : Z := 0x07.

Definition HTU21_RESET_TIME : Z := 15.

(** *** State and monad

    [_port] is the file-scope variable of the driver, [bus] the state of
    the back end, [trace] the calls made so far, newest first. *)

Record driver (B : Type) := {
  _port : Z;
  bus : B;
  trace : list event
}.

Arguments _port {B}.
Arguments bus {B}.
Arguments trace {B}.

Definition M (B A : Type) : Type := driver B -> A * driver B.

Definition pure {B A} (a : A) : M B A := fun s => (a, s).

Definition bind {B A C} (m : M B A) (k : A -> M B C) : M B C :=
  fun s => let '(a, s') := m s in k a s'.

Notation "x <- m ;; k" := (bind m (fun x => k))
  (at level 61, m at next level, right associativity).
Notation "m ;; k" := (bind m (fun _ => k))
  (at level 61, right associativity).

Definition emit {B} (e : event) : M B unit :=
  fun s => (tt, {| _port := _port s; bus := bus s; trace := e :: trace s |}).

Definition get_port {B} : M B Z := fun s => (_port s, s).

Definition set_port {B} (p : Z) : M B unit :=
  fun s => (tt, {| _port := p; bus := bus s; trace := trace s |}).

(** Run a call of the back end on the bus state. *)
Definition on_bus {B A} (f : B -> A * B) : M B A :=
  fun s => let '(a, b) := f (bus s) in
           (a, {| _port := _port s; bus := b; trace := trace s |}).

Section Driver.

Context {B : Type} (h : hal B).

(** *** Macros of FreeRTOS and ESP-IDF *)

Definition portTICK_PERIOD_MS : Z := 1000 / configTICK_RATE_HZ h.

Definition pdMS_TO_TICKS (ms : Z) : Z := ms * configTICK_RATE_HZ h / 1000.

Definition ESP_LOGE (msg : string) : M B unit := emit (EvLog LogError msg).
Definition ESP_LOGI (msg : string) : M B unit := emit (EvLog LogInfo msg).

(** Reports a non-zero code and carries on. *)
Definition ESP_ERROR_CHECK_WITHOUT_ABORT (x : Z) : M B unit :=
  if x =? ESP_OK then pure tt
  else ESP_LOGE "ESP_ERROR_CHECK_WITHOUT_ABORT failed".

(** *** Calls into the back end *)

Definition param_config (port : Z) (conf : i2c_config_t) : M B Z :=
  r <- on_bus (i2c_param_config h port conf) ;;
  emit (EvParamConfig port conf r) ;;
  pure r.

Definition driver_install (port mode : Z) : M B Z :=
  r <- on_bus (i2c_driver_install h port mode) ;;
  emit (EvDriverInstall port mode r) ;;
  pure r.

(** [None] is the NULL handle. *)
Definition cmd_link_create : M B (option (list i2c_op)) :=
  ok <- on_bus (i2c_cmd_link_create h) ;;
  emit (EvLinkCreate ok) ;;
  pure (if ok then Some [] else None).

Definition cmd_link_delete : M B unit := emit EvLinkDelete.

Definition master_cmd_begin (port : Z) (cmd : list i2c_op) (ticks : Z)
  : M B (Z * list Z) :=
  r <- on_bus (i2c_master_cmd_begin h port cmd ticks) ;;
  emit (EvCmdBegin port cmd ticks (fst r) (snd r)) ;;
  pure r.

Definition task_delay (ticks : Z) : M B unit :=
  on_bus (fun b => (tt, vTaskDelay h ticks b)) ;;
  emit (EvDelay ticks).

(** Queueing on a command link.  The source only reports the status of
    these calls and never branches on it, so a link is the list of what
    the driver asked for. *)
Definition master_start (cmd : list i2c_op) := cmd ++ [I2cStart].
Definition master_write_byte (cmd : list i2c_op) (data : Z) (ack_en : bool) :=
  cmd ++ [I2cWriteByte (Word.u8 data) ack_en].
Definition master_read_byte (cmd : list i2c_op) (ack : Z) :=
  cmd ++ [I2cReadByte ack].
Definition master_stop (cmd : list i2c_op) := cmd ++ [I2cStop].

(** The [i]-th byte stored by the read operations of a transaction. *)
Definition stored (rx : list Z) (i : nat) : Z := Word.u8 (nth i rx 0).

Definition address (rw : Z) : Z := Z.lor (Z.shiftl HTU21D_ADDR 1) rw.

(** *** htu21d_soft_reset *)

Definition htu21d_soft_reset : M B Z :=
  cmd <- cmd_link_create ;;
  match cmd with
  | None => ESP_LOGE "Not enough dynamic memory" ;; pure HTU21D_ERR_FAIL
  | Some cmd =>
      let cmd := master_start cmd in
      let cmd := master_write_byte cmd (address I2C_MASTER_WRITE) true in
      let cmd := master_write_byte cmd SOFT_RESET true in
      let cmd := master_stop cmd in
      port <- get_port ;;
      r <- master_cmd_begin port cmd (1000 / portTICK_PERIOD_MS) ;;
      let ret := fst r in
      ESP_ERROR_CHECK_WITHOUT_ABORT ret ;;
      cmd_link_delete ;;
      if ret =? ESP_ERR_INVALID_ARG then
        ESP_LOGE "Soft reset failed, parameter error." ;;
        pure HTU21D_ERR_INVALID_ARG
      else if ret =? ESP_FAIL then
        ESP_LOGE "Sending Soft Reset command error, the HTU21D slave hasn't ACK the transfer." ;;
        pure HTU21D_ERR_FAIL
      else if ret =? ESP_ERR_INVALID_STATE then
        ESP_LOGE "Soft reset failed,  I2C driver not installed or not in master mode." ;;
        pure HTU21D_ERR_INVALID_STATE
      else if ret =? ESP_ERR_TIMEOUT then
        ESP_LOGE "Soft reset failed,  operation timeout because the I2C bus is busy." ;;
        pure HTU21D_ERR_TIMEOUT
      else
        task_delay (pdMS_TO_TICKS HTU21_RESET_TIME) ;;
        ESP_LOGI "HTU21D sensor soft reset was successful." ;;
        pure HTU21D_ERR_OK
  end.

(** *** htu21d_init *)

Definition htu21d_init (port sda_pin scl_pin sda_internal_pullup scl_internal_pullup : Z)
  : M B Z :=
  set_port port ;;
  let conf := {| mode := I2C_MODE_MASTER;
                 sda_io_num := sda_pin;
                 scl_io_num := scl_pin;
                 sda_pullup_en := sda_internal_pullup;
                 scl_pullup_en := scl_internal_pullup;
                 clk_speed := 100000 |} in
  ret <- param_config port conf ;;
  if negb (ret =? ESP_OK) then
    ESP_LOGE "Failed to configure I2C (port %d, sda_pin %d, scl_pin %d): %s" ;;
    pure HTU21D_ERR_CONFIG
  else
  ret <- driver_install port I2C_MODE_MASTER ;;
  if negb (ret =? ESP_OK) then
    ESP_LOGE "Failed to install I2C driver: %s" ;;
    pure HTU21D_ERR_INSTALL
  else
  cmd <- cmd_link_create ;;
  match cmd with
  | None => ESP_LOGE "Not enough dynamic memory" ;; pure HTU21D_ERR_FAIL
  | Some cmd =>
      let cmd := master_start cmd in
      let cmd := master_write_byte cmd (address I2C_MASTER_WRITE) true in
      let cmd := master_stop cmd in
      r <- master_cmd_begin port cmd (1000 / portTICK_PERIOD_MS) ;;
      if negb (fst r =? ESP_OK) then
        ESP_LOGE "HTU21D sensor not found on bus: %s" ;;
        pure HTU21D_ERR_NOTFOUND
      else
      ESP_LOGI "HTU21D sensor initialized successfully." ;;
      ret <- htu21d_soft_reset ;;
      if negb (ret =? HTU21D_ERR_OK) then
        ESP_LOGE "Failed to soft reset the HTU21D sensor after initializing it, error: 0x%02X" ;;
        pure ret
      else
      pure HTU21D_ERR_OK
  end.

(** *** htu21d_read_user_register, htu21d_write_user_register *)

Definition htu21d_read_user_register : M B Z :=
  cmd <- cmd_link_create ;;
  match cmd with
  | None => ESP_LOGE "Not enough dynamic memory" ;; pure 0
  | Some cmd =>
      let cmd := master_start cmd in
      let cmd := master_write_byte cmd (address I2C_MASTER_WRITE) true in
      let cmd := master_write_byte cmd READ_USER_REG true in
      let cmd := master_stop cmd in
      port <- get_port ;;
      r <- master_cmd_begin port cmd (1000 / portTICK_PERIOD_MS) ;;
      ESP_ERROR_CHECK_WITHOUT_ABORT (fst r) ;;
      cmd_link_delete ;;
      if negb (fst r =? ESP_OK) then pure 0 else
      cmd <- cmd_link_create ;;
      match cmd with
      | None => ESP_LOGE "Not enough dynamic memory" ;; pure 0
      | Some cmd =>
          let cmd := master_start cmd in
          let cmd := master_write_byte cmd (address I2C_MASTER_READ) true in
          let cmd := master_read_byte cmd 0x01 in
          let cmd := master_stop cmd in
          port <- get_port ;;
          r <- master_cmd_begin port cmd (1000 / portTICK_PERIOD_MS) ;;
          ESP_ERROR_CHECK_WITHOUT_ABORT (fst r) ;;
          cmd_link_delete ;;
          if negb (fst r =? ESP_OK) then pure 0 else
          let reg_value := stored (snd r) 0 in
          pure reg_value
      end
  end.

Definition htu21d_write_user_register (value : Z) : M B Z :=
  cmd <- cmd_link_create ;;
  match cmd with
  | None => ESP_LOGE "Not enough dynamic memory" ;; pure HTU21D_ERR_FAIL
  | Some cmd =>
      let cmd := master_start cmd in
      let cmd := master_write_byte cmd (address I2C_MASTER_WRITE) true in
      let cmd := master_write_byte cmd WRITE_USER_REG true in
      let cmd := master_write_byte cmd value true in
      let cmd := master_stop cmd in
      port <- get_port ;;
      r <- master_cmd_begin port cmd (1000 / portTICK_PERIOD_MS) ;;
      let ret := fst r in
      ESP_ERROR_CHECK_WITHOUT_ABORT ret ;;
      cmd_link_delete ;;
      if ret =? ESP_ERR_INVALID_ARG then pure HTU21D_ERR_INVALID_ARG
      else if ret =? ESP_FAIL then pure HTU21D_ERR_FAIL
      else if ret =? ESP_ERR_INVALID_STATE then pure HTU21D_ERR_INVALID_STATE
      else if ret =? ESP_ERR_TIMEOUT then pure HTU21D_ERR_TIMEOUT
      else pure HTU21D_ERR_OK
  end.

(** *** htu21d_get_resolution, htu21d_set_resolution *)

Definition htu21d_get_resolution : M B Z :=
  reg_value <- htu21d_read_user_register ;;
  pure (Word.u8 (Z.land reg_value 0x81)).

Definition htu21d_set_resolution (resolution : Z) : M B Z :=
  reg_value <- htu21d_read_user_register ;;
  let reg_value := Word.u8 (Z.land reg_value 0x81) in
  let resolution := Word.u8 (Z.land resolution 0x81) in
  let reg_value := Word.u8 (Z.lor reg_value resolution) in
  htu21d_write_user_register reg_value.

(** *** read_value *)

Definition read_value (command : Z) : M B Z :=
  cmd <- cmd_link_create ;;
  match cmd with
  | None => ESP_LOGE "Not enough dynamic memory" ;; pure 0
  | Some cmd =>
      let cmd := master_start cmd in
      let cmd := master_write_byte cmd (address I2C_MASTER_WRITE) true in
      let cmd := master_write_byte cmd command true in
      let cmd := master_stop cmd in
      port <- get_port ;;
      r <- master_cmd_begin port cmd (1000 / portTICK_PERIOD_MS) ;;
      ESP_ERROR_CHECK_WITHOUT_ABORT (fst r) ;;
      cmd_link_delete ;;
      if negb (fst r =? ESP_OK) then pure 0 else
      task_delay (50 / portTICK_PERIOD_MS) ;;
      cmd <- cmd_link_create ;;
      match cmd with
      | None => ESP_LOGE "Not enough dynamic memory" ;; pure 0
      | Some cmd =>
          let cmd := master_start cmd in
          let cmd := master_write_byte cmd (address I2C_MASTER_READ) true in
          let cmd := master_read_byte cmd 0x00 in
          let cmd := master_read_byte cmd 0x00 in
          let cmd := master_read_byte cmd 0x01 in
          let cmd := master_stop cmd in
          port <- get_port ;;
          r <- master_cmd_begin port cmd (1000 / portTICK_PERIOD_MS) ;;
          ESP_ERROR_CHECK_WITHOUT_ABORT (fst r) ;;
          cmd_link_delete ;;
          if negb (fst r =? ESP_OK) then pure 0 else
          let msb := stored (snd r) 0 in
          let lsb := stored (snd r) 1 in
          let crc := stored (snd r) 2 in
          let raw_value := Word.u16 (Z.lor (Z.shiftl msb 8) lsb) in
          (if negb (Crc.is_crc_valid raw_value crc)
           then ESP_LOGE "CRC is invalid."
           else pure tt) ;;
          pure (Word.u16 (Z.land raw_value 0xFFFC))
      end
  end.

(** *** htu21d_read_temperature, htu21d_read_humidity *)

(** [(raw * 175.72 / 65536.0) - 46.85], returned as [float]. *)
Definition temperature_of_raw (raw : Z) : Ieee.float32 :=
  Ieee.f_of_double
    (PrimFloat.sub
       (PrimFloat.div (PrimFloat.mul (Ieee.d_of_int raw) (Ieee.d_lit 17572 100))
                      (Ieee.d_lit 65536 1))
       (Ieee.d_lit 4685 100)).

(** [(raw * 125.0 / 65536.0) - 6.0], returned as [float]. *)
Definition humidity_of_raw (raw : Z) : Ieee.float32 :=
  Ieee.f_of_double
    (PrimFloat.sub
       (PrimFloat.div (PrimFloat.mul (Ieee.d_of_int raw) (Ieee.d_lit 125 1))
                      (Ieee.d_lit 65536 1))
       (Ieee.d_lit 6 1)).

(** The value returned for a failed read: [-999] as a [float]. *)
Definition read_failed : Ieee.float32 := Ieee.f_of_int (-999).

Definition htu21d_read_temperature : M B Ieee.float32 :=
  raw_temperature <- read_value TRIGGER_TEMP_MEASURE_NOHOLD ;;
  if raw_temperature =? 0 then pure read_failed
  else pure (temperature_of_raw raw_temperature).

Definition htu21d_read_humidity : M B Ieee.float32 :=
  raw_humidity <- read_value TRIGGER_HUMD_MEASURE_NOHOLD ;;
  if raw_humidity =? 0 then pure read_failed
  else pure (humidity_of_raw raw_humidity).

End Driver.

End Htu21d.

(** ** The protocol on the wire, and what is read off a trace

    These are the notions the properties below are stated with; the
    transactions are the byte sequences of the sensor protocol. *)

Module Protocol.

Import Esp Htu21d.

(** Address byte 0x40 with the write bit, nothing else: the presence probe. *)
Definition txn_probe : list i2c_op :=
  [I2cStart; I2cWriteByte 0x80 true; I2cStop].

(** Address byte with the write bit, then one command byte. *)
Definition txn_command (command : Z) : list i2c_op :=
  [I2cStart; I2cWriteByte 0x80 true; I2cWriteByte (Word.u8 command) true; I2cStop].

(** Write-user-register command followed by the new value. *)
Definition txn_write_reg (value : Z) : list i2c_op :=
  [I2cStart; I2cWriteByte 0x80 true; I2cWriteByte 0xE6 true;
   I2cWriteByte (Word.u8 value) true; I2cStop].

(** Address byte with the read bit, then [n] bytes, all acknowledged but
    the last. *)
Definition txn_read (n : nat) : list i2c_op :=
  [I2cStart; I2cWriteByte 0x81 true]
    ++ repeat (I2cReadByte 0) (n - 1) ++ [I2cReadByte 1; I2cStop].

(** The bytes a transaction writes after the address byte. *)
Definition payload (ops : list i2c_op) : list Z :=
  tl (flat_map (fun op => match op with I2cWriteByte d _ => [d] | _ => [] end) ops).

(** The event is a transaction that sends the soft-reset command. *)
Definition is_soft_reset (e : event) : bool :=
  match e with
  | EvCmdBegin _ ops _ _ _ =>
      match payload ops with
      | c :: _ => c =? SOFT_RESET
      | [] => false
      end
  | _ => false
  end.

(** The event is a presence probe that the back end reported successful. *)
Definition is_probe_ok (e : event) : bool :=
  match e with
  | EvCmdBegin _ ops _ ret _ =>
      match payload ops with
      | [] => ret =? ESP_OK
      | _ :: _ => false
      end
  | _ => false
  end.

(** Monitor over a trace in the order of time: a soft reset may only be
    sent once a probe has succeeded. *)
Fixpoint reset_only_after_probe (probed : bool) (evs : list event) : bool :=
  match evs with
  | [] => true
  | e :: rest =>
      if is_soft_reset e
      then probed && reset_only_after_probe probed rest
      else reset_only_after_probe (probed || is_probe_ok e) rest
  end.

(** The events that [s'] has and [s] had not, newest first. *)
Definition events_since {B} (s s' : driver B) : list event :=
  firstn (List.length (trace s') - List.length (trace s)) (trace s').

(** For the raw word [4 * k]: both conversions differ from the failure
    value and from the conversions of raw 0. *)
Definition reading_is_distinct (k : Z) : bool :=
  let t := temperature_of_raw (4 * k) in
  let u := humidity_of_raw (4 * k) in
  negb (Ieee.f_same t read_failed) && negb (Ieee.f_same t (temperature_of_raw 0))
  && negb (Ieee.f_same u read_failed) && negb (Ieee.f_same u (humidity_of_raw 0)).

(** The status the write path is to report for each category of
    transport failure. *)
Definition status_table : list (Z * Z) :=
  [ (ESP_ERR_INVALID_ARG, HTU21D_ERR_INVALID_ARG);
    (ESP_FAIL, HTU21D_ERR_FAIL);
    (ESP_ERR_INVALID_STATE, HTU21D_ERR_INVALID_STATE);
    (ESP_ERR_TIMEOUT, HTU21D_ERR_TIMEOUT) ].

Section Scenarios.

Context {B : Type} (h : hal B).

Definition timeout_ticks : Z := 1000 / portTICK_PERIOD_MS h.

(** The back end, in bus state [b], grants a command link and then
    answers the transaction [ops] on [port] with [ret] and [rx]. *)
Definition answers (port : Z) (ops : list i2c_op) (b : B)
    (ret : Z) (rx : list Z) (b' : B) : Prop :=
  exists b1, i2c_cmd_link_create h b = (true, b1) /\
             i2c_master_cmd_begin h port ops timeout_ticks b1 = (ret, rx, b').

(** The back end has no memory for a command link. *)
Definition refuses (b : B) : Prop :=
  exists b1, i2c_cmd_link_create h b = (false, b1).

(** The ways in which the two transactions of [read_value] can fail. *)
Inductive read_fails (command : Z) (s : driver B) : Prop :=
| fails_setup_command :
    refuses (bus s) -> read_fails command s
| fails_command ret rx b2 :
    answers (_port s) (txn_command command) (bus s) ret rx b2 ->
    ret <> ESP_OK -> read_fails command s
| fails_setup_read rx b2 :
    answers (_port s) (txn_command command) (bus s) ESP_OK rx b2 ->
    refuses (vTaskDelay h (50 / portTICK_PERIOD_MS h) b2) ->
    read_fails command s
| fails_read rx b2 ret rx' b4 :
    answers (_port s) (txn_command command) (bus s) ESP_OK rx b2 ->
    answers (_port s) (txn_read 3) (vTaskDelay h (50 / portTICK_PERIOD_MS h) b2)
            ret rx' b4 ->
    ret <> ESP_OK -> read_fails command s.

(** Both transactions of [read_value] succeed and the sensor's answer is
    the three bytes [msb], [lsb], [crc]. *)
Definition read_succeeds (command : Z) (s : driver B) (msb lsb crc : Z) : Prop :=
  exists rx b2 b4,
    answers (_port s) (txn_command command) (bus s) ESP_OK rx b2 /\
    answers (_port s) (txn_read 3) (vTaskDelay h (50 / portTICK_PERIOD_MS h) b2)
            ESP_OK [msb; lsb; crc] b4.

(** The bus is configured and the driver installed, and the presence
    probe is answered with [ret]. *)
Definition probe_answers (port sda_pin scl_pin sda_pullup scl_pullup : Z)
    (b : B) (ret : Z) (rx : list Z) (b' : B) : Prop :=
  exists b1 b2,
    i2c_param_config h port
      {| mode := I2C_MODE_MASTER; sda_io_num := sda_pin; scl_io_num := scl_pin;
         sda_pullup_en := sda_pullup; scl_pullup_en := scl_pullup;
         clk_speed := 100000 |} b = (ESP_OK, b1) /\
    i2c_driver_install h port I2C_MODE_MASTER b1 = (ESP_OK, b2) /\
    answers port txn_probe b2 ret rx b'.

(** The driver state once the bus is set up and the probe has been
    answered with [ESP_OK]. *)
Definition probed (port sda_pin scl_pin sda_pullup scl_pullup : Z)
    (s : driver B) (rx : list Z) (b' : B) : driver B :=
  {| _port := port;
     bus := b';
     trace :=
       EvLog LogInfo "HTU21D sensor initialized successfully."
       :: EvCmdBegin port txn_probe timeout_ticks ESP_OK rx
       :: EvLinkCreate true
       :: EvDriverInstall port I2C_MODE_MASTER ESP_OK
       :: EvParamConfig port
            {| mode := I2C_MODE_MASTER; sda_io_num := sda_pin;
               scl_io_num := scl_pin; sda_pullup_en := sda_pullup;
               scl_pullup_en := scl_pullup; clk_speed := 100000 |} ESP_OK
       :: trace s |}.

End Scenarios.

End Protocol.

(** ** A simulated sensor

    A back end to run the driver on: an HTU21D behind an I2C controller
    whose failures are scripted. *)

Module Sim.

Import Esp Htu21d.

Record sensor := {
  user_reg : Z;              (* the user register *)
  last_command : Z;          (* the last command byte received *)
  measurement : list Z;      (* answer to a read after a trigger command *)
  no_memory : list bool;     (* per command link asked for: refuse it? *)
  faults : list Z            (* per transaction: status of the controller *)
}.

Definition with_reg (v : Z) (x : sensor) : sensor :=
  {| user_reg := v; last_command := last_command x;
     measurement := measurement x; no_memory := no_memory x; faults := faults x |}.

Definition with_command (c : Z) (x : sensor) : sensor :=
  {| user_reg := user_reg x; last_command := c;
     measurement := measurement x; no_memory := no_memory x; faults := faults x |}.

(** What the sensor does with the bytes written to it after its address. *)
Definition receive (bytes : list Z) (x : sensor) : sensor :=
  match bytes with
  | [] => x
  | c :: rest =>
      if c =? SOFT_RESET then
        with_command c (with_reg (Z.lor 0x02 (Z.land (user_reg x) 0x04)) x)
      else if c =? WRITE_USER_REG then
        match rest with
        | v :: _ => with_command c (with_reg v x)
        | [] => with_command c x
        end
      else with_command c x
  end.

(** What the sensor puts on the bus when it is read. *)
Definition answer (x : sensor) : list Z :=
  if last_command x =? READ_USER_REG then [user_reg x] else measurement x.

Definition written (ops : list i2c_op) : list Z :=
  flat_map (fun op => match op with I2cWriteByte d _ => [d] | _ => [] end) ops.

Definition reads (ops : list i2c_op) : nat :=
  List.length (filter (fun op => match op with I2cReadByte _ => true | _ => false end) ops).

Definition execute (ops : list i2c_op) (x : sensor) : Z * list Z * sensor :=
  match written ops with
  | [] => (ESP_OK, [], x)
  | a :: rest =>
      if negb (Z.shiftr a 1 =? HTU21D_ADDR) then (ESP_FAIL, [], x)
      else if Z.testbit a 0 then (ESP_OK, firstn (reads ops) (answer x), x)
      else (ESP_OK, [], receive rest x)
  end.

Definition sim_cmd_link_create (x : sensor) : bool * sensor :=
  (negb (hd false (no_memory x)),
   {| user_reg := user_reg x; last_command := last_command x;
      measurement := measurement x; no_memory := tl (no_memory x);
      faults := faults x |}).

Definition sim_cmd_begin (port : Z) (ops : list i2c_op) (ticks : Z) (x : sensor)
  : Z * list Z * sensor :=
  let ret := hd ESP_OK (faults x) in
  let x' := {| user_reg := user_reg x; last_command := last_command x;
               measurement := measurement x; no_memory := no_memory x;
               faults := tl (faults x) |} in
  if ret =? ESP_OK then execute ops x' else (ret, [], x').

Definition sim : hal sensor := {|
  configTICK_RATE_HZ := 100;
  i2c_param_config := fun _ _ x => (ESP_OK, x);
  i2c_driver_install := fun _ _ x => (ESP_OK, x);
  i2c_cmd_link_create := sim_cmd_link_create;
  i2c_master_cmd_begin := sim_cmd_begin;
  vTaskDelay := fun _ x => x
|}.

(** A sensor after power-up whose next measurement reads [msb lsb crc]. *)
Definition fresh (msb lsb crc : Z) : sensor :=
  {| user_reg := 0x02; last_command := 0; measurement := [msb; lsb; crc];
     no_memory := []; faults := [] |}.

Definition boot (x : sensor) : driver sensor :=
  {| _port := 0; bus := x; trace := [] |}.

(** The resolution read back after [htu21d_set_resolution r], on a sensor
    whose user register held [reg] and with every transaction succeeding. *)
Definition round_trip (reg r : Z) : Z :=
  fst (htu21d_get_resolution sim
         (snd (htu21d_set_resolution sim r (boot (with_reg reg (fresh 0 0 0)))))).

(** A sensor whose controller reports [ret] for the next transaction. *)
Definition faulty (ret : Z) : driver sensor :=
  boot {| user_reg := 0x02; last_command := 0; measurement := [0x68; 0x3A; 0x7C];
          no_memory := []; faults := [ret] |}.

End Sim.

(** ** The helper functions on readings

    [celsius_to_fahrenheit] and [htu21_compute_compensated_humidity] work
    on C [float] throughout (every literal carries the suffix F), so each
    operation is a binary32 operation. *)

Module Helpers.

Definition f_add : Ieee.float32 -> Ieee.float32 -> Ieee.float32 := SFadd 24 128.
Definition f_sub : Ieee.float32 -> Ieee.float32 -> Ieee.float32 := SFsub 24 128.
Definition f_mul : Ieee.float32 -> Ieee.float32 -> Ieee.float32 := SFmul 24 128.
Definition f_div : Ieee.float32 -> Ieee.float32 -> Ieee.float32 := SFdiv 24 128.

(** The decimal literal [num / den] with suffix F: the correctly rounded
    quotient of two integers that binary32 represents exactly. *)
Definition f_lit (num den : Z) : Ieee.float32 :=
  f_div (Ieee.f_of_int num) (Ieee.f_of_int den).

(** [(-0.15F)] *)
Definition HTU21_TEMPERATURE_COEFFICIENT : Ieee.float32 := SFopp (f_lit 15 100).

(** [(celsius_degrees * 9.0F / 5.0F) + 32.0F] *)
Definition celsius_to_fahrenheit (celsius_degrees : Ieee.float32) : Ieee.float32 :=
  f_add (f_div (f_mul celsius_degrees (f_lit 9 1)) (f_lit 5 1)) (f_lit 32 1).

(** [relative_humidity + (25.0F - temperature) * HTU21_TEMPERATURE_COEFFICIENT] *)
Definition htu21_compute_compensated_humidity
    (temperature relative_humidity : Ieee.float32) : Ieee.float32 :=
  f_add relative_humidity
        (f_mul (f_sub (f_lit 25 1) temperature) HTU21_TEMPERATURE_COEFFICIENT).

End Helpers.

(** ** What is observed of a run

    Readings of the trace, and further scenarios of the back end, for the
    properties of Part II. *)

Module Observe.

Import Esp Htu21d Protocol.

(** The transactions among the events [evs] (newest first), in the order
    of time. *)
Definition transactions (evs : list event) : list (list i2c_op) :=
  flat_map (fun e => match e with EvCmdBegin _ ops _ _ _ => [ops] | _ => [] end)
           (rev evs).

(** The ports the transactions were run on. *)
Definition ports (evs : list event) : list Z :=
  flat_map (fun e => match e with EvCmdBegin p _ _ _ _ => [p] | _ => [] end)
           (rev evs).

(** The delays taken, in ticks. *)
Definition delays (evs : list event) : list Z :=
  flat_map (fun e => match e with EvDelay t => [t] | _ => [] end) (rev evs).

(** What the bus sees of a run: transactions and waits. *)
Inductive step :=
| Txn (ops : list i2c_op)
| Wait (ticks : Z).

(** The transactions and delays among the events [evs] (newest first),
    in the order of time. *)
Definition timeline (evs : list event) : list step :=
  flat_map (fun e => match e with
                     | EvCmdBegin _ ops _ _ _ => [Txn ops]
                     | EvDelay t => [Wait t]
                     | _ => []
                     end)
           (rev evs).

(** The calls that configure the controller or install its driver. *)
Definition setup_calls (evs : list event) : nat :=
  List.length
    (filter (fun e => match e with
                      | EvParamConfig _ _ _ | EvDriverInstall _ _ _ => true
                      | _ => false
                      end) evs).

(** The value bytes of the write-user-register transactions. *)
Definition register_writes (evs : list event) : list Z :=
  flat_map (fun ops => match payload ops with
                       | c :: v :: _ => if c =? WRITE_USER_REG then [v] else []
                       | _ => []
                       end)
           (transactions evs).

(** The transaction is one a measurement consists of: the trigger
    command [command], or the read of three bytes. *)
Definition is_measurement_txn (command : Z) (ops : list i2c_op) : bool :=
  match payload ops with
  | [] => match ops with
          | [I2cStart; I2cWriteByte a _; I2cReadByte _; I2cReadByte _; I2cReadByte _;
             I2cStop] => a =? 0x81
          | _ => false
          end
  | [c] => c =? command
  | _ => false
  end.

(** Number of one bits among the low 24 bits, modulo 2. *)
Definition parity24 (m : Z) : bool :=
  fold_right (fun i acc => xorb (Z.testbit m (Z.of_nat i)) acc) false (seq 0 24).

(** The 24-bit error pattern [e] as it hits the data word and the
    checksum byte. *)
Definition word_part (e : Z) : Z := Z.shiftr e 8.
Definition crc_part (e : Z) : Z := Z.land e 0xFF.

(** An error pattern the verifier lets through. *)
Definition undetected (e : Z) : bool := Crc.is_crc_valid (word_part e) (crc_part e).

(** Every pattern with two bits set, the higher one at [j], is detected. *)
Definition pairs_detected (j : Z) : bool :=
  all_from (Z.to_nat j) 0 (fun i => negb (undetected (Z.lxor (2 ^ i) (2 ^ j)))).

(** Every burst that starts at bit [i] and spans at most eight bits is
    detected, as far as it lies within the 24 bits. *)
Definition bursts_detected (i : Z) : bool :=
  all_from 255 1
    (fun b => (2 ^ 24 <=? Z.shiftl b i) || negb (undetected (Z.shiftl b i))).

(** [lo < x < hi] as IEEE comparisons. *)
Definition f_between (lo hi x : Ieee.float32) : bool := SFltb lo x && SFltb x hi.

(** The conversions of the raw word [4 * k] lie in the ranges of the
    data sheet. *)
Definition reading_in_range (k : Z) : bool :=
  f_between (temperature_of_raw 0) (Ieee.f_of_int 129) (temperature_of_raw (4 * k))
  && f_between (humidity_of_raw 0) (Ieee.f_of_int 119) (humidity_of_raw (4 * k)).

(** [celsius_to_fahrenheit] is exact at [5 * k] degrees. *)
Definition fahrenheit_exact (k : Z) : bool :=
  Ieee.f_same (Helpers.celsius_to_fahrenheit (Ieee.f_of_int (5 * k)))
              (Ieee.f_of_int (9 * k + 32)).

Section Scenarios.

Context {B : Type} (h : hal B).

(** The ways in which the two transactions of
    [htu21d_read_user_register] can fail. *)
Inductive register_read_fails (s : driver B) : Prop :=
| reg_fails_setup_command :
    refuses h (bus s) -> register_read_fails s
| reg_fails_command ret rx b2 :
    answers h (_port s) (txn_command READ_USER_REG) (bus s) ret rx b2 ->
    ret <> ESP_OK -> register_read_fails s
| reg_fails_setup_read rx b2 :
    answers h (_port s) (txn_command READ_USER_REG) (bus s) ESP_OK rx b2 ->
    refuses h b2 -> register_read_fails s
| reg_fails_read rx b2 ret rx' b4 :
    answers h (_port s) (txn_command READ_USER_REG) (bus s) ESP_OK rx b2 ->
    answers h (_port s) (txn_read 1) b2 ret rx' b4 ->
    ret <> ESP_OK -> register_read_fails s.

(** Both transactions succeed and the sensor answers the byte [v]. *)
Definition register_read_succeeds (s : driver B) (v : Z) (rx : list Z) (b' : B) : Prop :=
  exists b2,
    answers h (_port s) (txn_command READ_USER_REG) (bus s) ESP_OK rx b2 /\
    answers h (_port s) (txn_read 1) b2 ESP_OK [v] b'.

(** The command transaction of [read_value] does not go through. *)
Definition command_fails (command : Z) (s : driver B) : Prop :=
  refuses h (bus s) \/
  exists ret rx b2,
    answers h (_port s) (txn_command command) (bus s) ret rx b2 /\ ret <> ESP_OK.

(** The controller cannot be configured, or its driver not installed. *)
Definition config_fails (port sda_pin scl_pin sda_pullup scl_pullup : Z)
    (b : B) (ret : Z) (b' : B) : Prop :=
  i2c_param_config h port
    {| mode := I2C_MODE_MASTER; sda_io_num := sda_pin; scl_io_num := scl_pin;
       sda_pullup_en := sda_pullup; scl_pullup_en := scl_pullup;
       clk_speed := 100000 |} b = (ret, b') /\
  ret <> ESP_OK.

Definition install_fails (port sda_pin scl_pin sda_pullup scl_pullup : Z)
    (b : B) (ret : Z) (b' : B) : Prop :=
  exists b1,
    i2c_param_config h port
      {| mode := I2C_MODE_MASTER; sda_io_num := sda_pin; scl_io_num := scl_pin;
         sda_pullup_en := sda_pullup; scl_pullup_en := scl_pullup;
         clk_speed := 100000 |} b = (ESP_OK, b1) /\
    i2c_driver_install h port I2C_MODE_MASTER b1 = (ret, b') /\
    ret <> ESP_OK.

End Scenarios.

End Observe.

(** ** Further set-ups of the simulated sensor *)

Module Bench.

Import Esp Htu21d Sim.

(** The simulated back end with the given statuses for the configuration
    of the controller and the installation of its driver. *)
Definition with_setup (config_ret install_ret : Z) : hal sensor := {|
  configTICK_RATE_HZ := 100;
  i2c_param_config := fun _ _ x => (config_ret, x);
  i2c_driver_install := fun _ _ x => (install_ret, x);
  i2c_cmd_link_create := sim_cmd_link_create;
  i2c_master_cmd_begin := sim_cmd_begin;
  vTaskDelay := fun _ x => x
|}.

(** A sensor behind a controller that has no memory for the next
    command link. *)
Definition out_of_memory : driver sensor :=
  boot {| user_reg := 0x02; last_command := 0; measurement := [0x68; 0x3A; 0x7C];
          no_memory := [true]; faults := [] |}.

(** A sensor whose user register holds [reg]. *)
Definition holding (reg : Z) : driver sensor := boot (with_reg reg (fresh 0x68 0x3A 0x7C)).

End Bench.

(** * Part II: properties *)

(** ** Bit-level facts on [Z] *)

Lemma wrap_small w z : 0 <= z < 2 ^ w -> Word.wrap w z = z.
Proof. intros H. unfold Word.wrap. now apply Z.mod_small. Qed.

Lemma wrap_range w z : 0 <= w -> 0 <= Word.wrap w z < 2 ^ w.
Proof.
  intros Hw. unfold Word.wrap. apply Z.mod_pos_bound. now apply Z.pow_pos_nonneg.
Qed.

Lemma bits_above x m j :
  0 <= x < 2 ^ m -> 0 <= m <= j -> Z.testbit x j = false.
Proof.
  intros Hx Hj.
  rewrite <- (Z.mod_small x (2 ^ m)) by assumption.
  apply Z.mod_pow2_bits_high. lia.
Qed.

Lemma lt_pow2_of_bits x m :
  0 <= x -> 0 <= m ->
  (forall j, m <= j -> Z.testbit x j = false) -> x < 2 ^ m.
Proof.
  intros Hx Hm Hhi.
  assert (E : x mod 2 ^ m = x).
  { apply Z.bits_inj'. intros j Hj.
    destruct (Z_lt_le_dec j m) as [Hlt | Hge].
    - now apply Z.mod_pow2_bits_low.
    - rewrite Z.mod_pow2_bits_high by lia. symmetry. now apply Hhi. }
  rewrite <- E. apply Z.mod_pos_bound. now apply Z.pow_pos_nonneg.
Qed.

Lemma testbit_pow2 k j :
  0 <= k -> Z.testbit (2 ^ k) j = (j =? k).
Proof.
  intros Hk. destruct (Z.eqb_spec j k) as [-> | Hne].
  - now apply Z.pow2_bits_true.
  - apply Z.pow2_bits_false. congruence.
Qed.

(** The C test [row & (1 << k)] is a test of bit [k]. *)
Lemma land_one_shiftl a k :
  0 <= k -> (Z.land a (Z.shiftl 1 k) =? 0) = negb (Z.testbit a k).
Proof.
  intros Hk. rewrite Z.shiftl_1_l.
  destruct (Z.testbit a k) eqn:E; simpl.
  - apply Z.eqb_neq. intros H0.
    assert (T : Z.testbit (Z.land a (2 ^ k)) k = true).
    { rewrite Z.land_spec, E, Z.pow2_bits_true by assumption. reflexivity. }
    rewrite H0, Z.bits_0 in T. discriminate.
  - apply Z.eqb_eq. apply Z.bits_inj'. intros j Hj.
    rewrite Z.land_spec, Z.bits_0, testbit_pow2 by assumption.
    destruct (Z.eqb_spec j k) as [-> | _].
    + now rewrite E.
    + apply andb_false_r.
Qed.

Lemma lxor_cancel_r a b : Z.lxor (Z.lxor a b) b = a.
Proof. now rewrite Z.lxor_assoc, Z.lxor_nilpotent, Z.lxor_0_r. Qed.

Lemma lxor_swap a b c d :
  Z.lxor (Z.lxor a b) (Z.lxor c d) = Z.lxor (Z.lxor a c) (Z.lxor b d).
Proof.
  apply Z.bits_inj'. intros j _. rewrite !Z.lxor_spec.
  now destruct (Z.testbit a j), (Z.testbit b j), (Z.testbit c j), (Z.testbit d j).
Qed.

(** A left shift of a polynomial: its leading coefficient and the zeros
    above it. *)
Lemma shiftl_top g k :
  0 < g -> 0 <= k -> Z.testbit (Z.shiftl g k) (Z.log2 g + k) = true.
Proof.
  intros Hg Hk. pose proof (Z.log2_nonneg g).
  rewrite Z.shiftl_spec by lia.
  replace (Z.log2 g + k - k) with (Z.log2 g) by lia.
  now apply Z.bit_log2.
Qed.

Lemma shiftl_above g k j :
  0 < g -> 0 <= k -> Z.log2 g + k < j -> Z.testbit (Z.shiftl g k) j = false.
Proof.
  intros Hg Hk Hj. pose proof (Z.log2_nonneg g).
  rewrite Z.shiftl_spec by lia.
  apply Z.bits_above_log2; lia.
Qed.

Lemma lor_concat v c :
  0 <= v -> 0 <= c < 2 ^ 8 -> Z.lor (Z.shiftl v 8) c = v * 256 + c.
Proof.
  intros Hv Hc.
  assert (D : Z.land (Z.shiftl v 8) c = 0).
  { apply Z.bits_inj'. intros j Hj. rewrite Z.land_spec, Z.bits_0.
    destruct (Z_lt_le_dec j 8) as [Hlt | Hge].
    - now rewrite Z.shiftl_spec_low.
    - rewrite (bits_above c 8 j) by lia. apply andb_false_r. }
  rewrite <- Z.lxor_lor by exact D.
  rewrite <- Z.add_nocarry_lxor by exact D.
  rewrite Z.shiftl_mul_pow2 by lia. reflexivity.
Qed.

(** ** Long division over GF(2) *)

Section LongDivision.

Import GF2.

Variable g : Z.
Hypothesis g_pos : 0 < g.

Let dg := degree g.

Lemma degree_nonneg : 0 <= dg.
Proof. apply Z.log2_nonneg. Qed.

Lemma mod_from_S n m : mod_from (S n) m g = mod_from n (cancel g (Z.of_nat n) m) g.
Proof. reflexivity. Qed.

Lemma cancel_nonneg k m : 0 <= m -> 0 <= k -> 0 <= cancel g k m.
Proof.
  intros Hm Hk. unfold cancel. destruct (Z.testbit m (degree g + k)); [|assumption].
  apply Z.lxor_nonneg. split; intros _; [|assumption].
  apply Z.shiftl_nonneg. lia.
Qed.

Lemma cancel_lxor k a b :
  cancel g k (Z.lxor a b) = Z.lxor (cancel g k a) (cancel g k b).
Proof.
  unfold cancel. rewrite Z.lxor_spec.
  destruct (Z.testbit a (degree g + k)), (Z.testbit b (degree g + k)); simpl.
  - rewrite lxor_swap, Z.lxor_nilpotent, Z.lxor_0_r. reflexivity.
  - rewrite !Z.lxor_assoc. f_equal. apply Z.lxor_comm.
  - rewrite Z.lxor_assoc. reflexivity.
  - reflexivity.
Qed.

(** Cancelling the coefficient of x^(dg + k) takes a polynomial of
    degree at most [dg + k] to one of degree below [dg + k]. *)
Lemma cancel_bound k m :
  0 <= k -> 0 <= m < 2 ^ (dg + k + 1) -> 0 <= cancel g k m < 2 ^ (dg + k).
Proof.
  intros Hk Hm. pose proof degree_nonneg as Hd.
  split; [apply cancel_nonneg; lia|].
  apply lt_pow2_of_bits; [apply cancel_nonneg; lia | lia |].
  intros j Hj. unfold cancel. fold dg.
  destruct (Z.testbit m (dg + k)) eqn:E.
  - rewrite Z.lxor_spec.
    destruct (Z.eq_dec j (dg + k)) as [-> | Hne].
    + rewrite E. unfold dg, degree. now rewrite shiftl_top.
    + rewrite (bits_above m (dg + k + 1) j) by lia.
      unfold dg, degree in *. rewrite shiftl_above by lia. reflexivity.
  - destruct (Z.eq_dec j (dg + k)) as [-> | Hne]; [exact E|].
    apply (bits_above m (dg + k + 1) j); lia.
Qed.

Lemma cancel_small k m :
  0 <= k -> 0 <= m < 2 ^ (dg + k) -> cancel g k m = m.
Proof.
  intros Hk Hm. pose proof degree_nonneg as Hd. unfold cancel. fold dg.
  rewrite (bits_above m (dg + k) (dg + k)) by lia. reflexivity.
Qed.

Lemma mod_from_lxor n a b :
  mod_from n (Z.lxor a b) g = Z.lxor (mod_from n a g) (mod_from n b g).
Proof.
  revert a b. induction n as [|n IH]; intros a b; [reflexivity|].
  rewrite !mod_from_S, cancel_lxor. apply IH.
Qed.

Lemma mod_from_bound n m :
  0 <= m < 2 ^ (dg + Z.of_nat n) -> 0 <= mod_from n m g < 2 ^ dg.
Proof.
  revert m. induction n as [|n IH]; intros m Hm.
  - simpl. now rewrite Z.add_0_r in Hm.
  - rewrite mod_from_S. apply IH. apply cancel_bound; [lia|].
    now replace (dg + Z.of_nat n + 1) with (dg + Z.of_nat (S n)) by lia.
Qed.

(** Steps above the degree of the dividend do nothing. *)
Lemma mod_from_extend d n m :
  0 <= m < 2 ^ (dg + Z.of_nat n) -> mod_from (d + n) m g = mod_from n m g.
Proof.
  intros Hm. pose proof degree_nonneg as Hd.
  induction d as [|d IH]; [reflexivity|].
  change (S d + n)%nat with (S (d + n)). rewrite mod_from_S, cancel_small; [exact IH | lia |].
  split; [lia|]. apply Z.lt_le_trans with (2 ^ (dg + Z.of_nat n)); [lia|].
  apply Z.pow_le_mono_r; lia.
Qed.

Lemma mod_from_small n m : 0 <= m < 2 ^ dg -> mod_from n m g = m.
Proof.
  intros Hm. replace n with (n + 0)%nat by lia.
  rewrite mod_from_extend; [reflexivity|]. now rewrite Z.add_0_r.
Qed.

(** The remainder as a fixed number of steps. *)
Lemma gf2_mod_steps n m :
  0 <= m < 2 ^ (dg + Z.of_nat n) -> gf2_mod m g = mod_from n m g.
Proof.
  intros Hm. pose proof degree_nonneg as Hd. unfold gf2_mod. fold dg.
  set (n0 := Z.to_nat (degree m + 1 - dg)).
  assert (Hm0 : 0 <= m < 2 ^ (dg + Z.of_nat n0)).
  { split; [lia|]. destruct (Z.eq_dec m 0) as [-> | Hne].
    - apply Z.pow_pos_nonneg; lia.
    - apply Z.lt_le_trans with (2 ^ (degree m + 1)).
      + unfold degree. apply Z.log2_spec. lia.
      + apply Z.pow_le_mono_r; lia. }
  destruct (Nat.le_ge_cases n n0) as [Hle | Hge].
  - replace n0 with ((n0 - n) + n)%nat by lia. now apply mod_from_extend.
  - symmetry. replace n with ((n - n0) + n0)%nat by lia. now apply mod_from_extend.
Qed.

Lemma gf2_mod_bound m : 0 <= m -> 0 <= gf2_mod m g < 2 ^ dg.
Proof.
  intros Hm. pose proof degree_nonneg as Hd.
  assert (Hb : 0 <= m < 2 ^ (dg + Z.of_nat (Z.to_nat (Z.log2 m + 1)))).
  { split; [assumption|]. pose proof (Z.log2_nonneg m).
    destruct (Z.eq_dec m 0) as [-> | Hne]; [apply Z.pow_pos_nonneg; lia|].
    apply Z.lt_le_trans with (2 ^ (Z.log2 m + 1)).
    - apply Z.log2_spec. lia.
    - apply Z.pow_le_mono_r; lia. }
  rewrite (gf2_mod_steps _ m Hb). now apply mod_from_bound.
Qed.

Lemma gf2_mod_lxor a b :
  0 <= a -> 0 <= b ->
  gf2_mod (Z.lxor a b) g = Z.lxor (gf2_mod a g) (gf2_mod b g).
Proof.
  intros Ha Hb. pose proof degree_nonneg as Hd.
  set (n := Z.to_nat (Z.max (Z.log2 a) (Z.log2 b) + 1)).
  assert (Hn : forall x, 0 <= x -> Z.log2 x <= Z.max (Z.log2 a) (Z.log2 b) ->
                         0 <= x < 2 ^ (dg + Z.of_nat n)).
  { intros x Hx Hl. split; [assumption|]. pose proof (Z.log2_nonneg x).
    destruct (Z.eq_dec x 0) as [-> | Hne]; [apply Z.pow_pos_nonneg; lia|].
    apply Z.lt_le_trans with (2 ^ (Z.log2 x + 1)).
    - apply Z.log2_spec. lia.
    - apply Z.pow_le_mono_r; lia. }
  rewrite (gf2_mod_steps n a), (gf2_mod_steps n b), (gf2_mod_steps n (Z.lxor a b)).
  - apply mod_from_lxor.
  - apply Hn; [apply Z.lxor_nonneg; tauto | now apply Z.log2_lxor].
  - apply Hn; lia.
  - apply Hn; lia.
Qed.

End LongDivision.

(** ** Products over GF(2), and division as their inverse *)

Lemma lxor_lt_pow2 a b n :
  0 <= n -> 0 <= a < 2 ^ n -> 0 <= b < 2 ^ n -> 0 <= Z.lxor a b < 2 ^ n.
Proof.
  intros Hn Ha Hb.
  assert (H0 : 0 <= Z.lxor a b) by (apply Z.lxor_nonneg; lia).
  split; [exact H0|]. apply lt_pow2_of_bits; [exact H0 | exact Hn |].
  intros j Hj. rewrite Z.lxor_spec.
  now rewrite (bits_above a n j), (bits_above b n j) by lia.
Qed.

Lemma lt_pow2_drop_top q n :
  0 <= n -> 0 <= q < 2 ^ (n + 1) -> Z.testbit q n = false -> 0 <= q < 2 ^ n.
Proof.
  intros Hn Hq Hb. split; [lia|]. apply lt_pow2_of_bits; [lia | lia |].
  intros j Hj. destruct (Z.eq_dec j n) as [-> | Hne]; [exact Hb|].
  apply (bits_above q (n + 1) j); lia.
Qed.

Section Product.

Import GF2.

Variable g : Z.
Hypothesis g_pos : 0 < g.

Let dg := degree g.

Lemma clmul_bits_S n q :
  clmul_bits (S n) q g =
  Z.lxor (if Z.testbit q (Z.of_nat n) then Z.shiftl g (Z.of_nat n) else 0)
         (clmul_bits n q g).
Proof. reflexivity. Qed.

Lemma clmul_bits_ext n q q' :
  (forall j, 0 <= j < Z.of_nat n -> Z.testbit q j = Z.testbit q' j) ->
  clmul_bits n q g = clmul_bits n q' g.
Proof.
  induction n as [|n IH]; intros E; [reflexivity|].
  rewrite !clmul_bits_S, (E (Z.of_nat n)) by lia.
  f_equal. apply IH. intros j Hj. apply E. lia.
Qed.

Lemma clmul_bits_lxor n q q' :
  clmul_bits n (Z.lxor q q') g = Z.lxor (clmul_bits n q g) (clmul_bits n q' g).
Proof.
  induction n as [|n IH]; [reflexivity|].
  rewrite !clmul_bits_S, IH, Z.lxor_spec.
  rewrite (lxor_swap _ (clmul_bits n q g)). f_equal.
  destruct (Z.testbit q (Z.of_nat n)), (Z.testbit q' (Z.of_nat n)); simpl.
  - now rewrite Z.lxor_nilpotent.
  - now rewrite Z.lxor_0_r.
  - reflexivity.
  - reflexivity.
Qed.

Lemma clmul_bits_0 n : clmul_bits n 0 g = 0.
Proof.
  induction n as [|n IH]; [reflexivity|].
  now rewrite clmul_bits_S, IH, Z.bits_0.
Qed.

Lemma shiftl_bound k : 0 <= k -> 0 <= Z.shiftl g k < 2 ^ (dg + k + 1).
Proof.
  intros Hk. pose proof (degree_nonneg g) as Hd. fold dg in Hd.
  assert (H0 : 0 <= Z.shiftl g k) by (apply Z.shiftl_nonneg; lia).
  split; [exact H0|]. apply lt_pow2_of_bits; [exact H0 | lia |].
  intros j Hj. apply shiftl_above; unfold dg, degree in *; lia.
Qed.

(** The degree of a product is at most the sum of the degrees. *)
Lemma clmul_bits_bound n q : 0 <= clmul_bits n q g < 2 ^ (dg + Z.of_nat n).
Proof.
  pose proof (degree_nonneg g) as Hd. fold dg in Hd.
  induction n as [|n IH].
  - simpl. split; [lia|]. apply Z.pow_pos_nonneg; lia.
  - rewrite clmul_bits_S.
    replace (dg + Z.of_nat (S n)) with (dg + Z.of_nat n + 1) by lia.
    apply lxor_lt_pow2; [lia | |].
    + destruct (Z.testbit q (Z.of_nat n)).
      * apply shiftl_bound. lia.
      * split; [lia|]. apply Z.pow_pos_nonneg; lia.
    + split; [lia|]. apply Z.lt_le_trans with (2 ^ (dg + Z.of_nat n)); [lia|].
      apply Z.pow_le_mono_r; lia.
Qed.

Lemma clmul_bits_extend d n q :
  0 <= q < 2 ^ Z.of_nat n -> clmul_bits (d + n) q g = clmul_bits n q g.
Proof.
  intros Hq. induction d as [|d IH]; [reflexivity|].
  change (S d + n)%nat with (S (d + n)).
  rewrite clmul_bits_S, IH, (bits_above q (Z.of_nat n)) by lia.
  apply Z.lxor_0_l.
Qed.

Lemma clmul_steps n q :
  0 <= q < 2 ^ Z.of_nat n -> clmul q g = clmul_bits n q g.
Proof.
  intros Hq. unfold clmul. set (n0 := Z.to_nat (Z.log2 q + 1)).
  assert (Hq0 : 0 <= q < 2 ^ Z.of_nat n0).
  { split; [lia|]. pose proof (Z.log2_nonneg q).
    destruct (Z.eq_dec q 0) as [-> | Hne]; [apply Z.pow_pos_nonneg; lia|].
    unfold n0. rewrite Z2Nat.id by lia. apply Z.log2_spec. lia. }
  destruct (Nat.le_ge_cases n n0) as [Hle | Hge].
  - replace n0 with ((n0 - n) + n)%nat by lia. now apply clmul_bits_extend.
  - symmetry. replace n with ((n - n0) + n0)%nat by lia. now apply clmul_bits_extend.
Qed.

(** Only the zero polynomial has a multiple of degree below [dg]. *)
Lemma clmul_bits_low n q :
  0 <= q < 2 ^ Z.of_nat n -> clmul_bits n q g < 2 ^ dg -> q = 0.
Proof.
  pose proof (degree_nonneg g) as Hd. fold dg in Hd.
  induction n as [|n IH]; intros Hq Hlow.
  - simpl in Hq. lia.
  - rewrite clmul_bits_S in Hlow.
    destruct (Z.testbit q (Z.of_nat n)) eqn:E.
    + exfalso.
      pose proof (clmul_bits_bound n q) as Hb.
      pose proof (clmul_bits_bound (S n) q) as Hb'.
      rewrite clmul_bits_S, E in Hb'.
      assert (T : Z.testbit (Z.lxor (Z.shiftl g (Z.of_nat n)) (clmul_bits n q g))
                            (dg + Z.of_nat n) = false).
      { apply (bits_above _ dg); lia. }
      rewrite Z.lxor_spec in T.
      rewrite (bits_above (clmul_bits n q g) (dg + Z.of_nat n)) in T by lia.
      unfold dg, degree in T. rewrite shiftl_top in T by lia.
      discriminate.
    + rewrite Z.lxor_0_l in Hlow. apply IH; [|exact Hlow].
      apply lt_pow2_drop_top; [lia | | exact E].
      now replace (Z.of_nat n + 1) with (Z.of_nat (S n)) by lia.
Qed.

(** Long division computes a quotient: the dividend is the product plus
    the remainder. *)
Lemma mod_from_quotient n m :
  0 <= m < 2 ^ (dg + Z.of_nat n) ->
  exists q, 0 <= q < 2 ^ Z.of_nat n /\
            m = Z.lxor (clmul_bits n q g) (mod_from n m g).
Proof.
  pose proof (degree_nonneg g) as Hd. fold dg in Hd.
  revert m. induction n as [|n IH]; intros m Hm.
  - exists 0. split; [simpl; lia|].
    cbn [clmul_bits mod_from]. now rewrite Z.lxor_0_l.
  - assert (Hc : 0 <= cancel g (Z.of_nat n) m < 2 ^ (dg + Z.of_nat n)).
    { apply cancel_bound; [exact g_pos | lia |].
      now replace (degree g + Z.of_nat n + 1) with (dg + Z.of_nat (S n)) by (unfold dg; lia). }
    destruct (IH _ Hc) as (q' & Hq' & E).
    assert (Hpow : 2 ^ Z.of_nat (S n) = 2 * 2 ^ Z.of_nat n).
    { rewrite Nat2Z.inj_succ, Z.pow_succ_r by lia. reflexivity. }
    rewrite mod_from_S. unfold cancel in E, Hc |- *.
    destruct (Z.testbit m (degree g + Z.of_nat n)) eqn:T.
    + exists (Z.lxor q' (2 ^ Z.of_nat n)). split.
      * apply lxor_lt_pow2; [lia | lia |]. split; [|lia].
        apply Z.pow_nonneg. lia.
      * rewrite clmul_bits_S, Z.lxor_spec, testbit_pow2, Z.eqb_refl by lia.
        rewrite (bits_above q' (Z.of_nat n)) by lia. simpl.
        rewrite (clmul_bits_ext n _ q').
        -- rewrite Z.lxor_assoc, <- E, Z.lxor_comm. symmetry. apply lxor_cancel_r.
        -- intros j Hj. rewrite Z.lxor_spec, testbit_pow2 by lia.
           replace (j =? Z.of_nat n) with false by (symmetry; apply Z.eqb_neq; lia).
           apply xorb_false_r.
    + exists q'. split; [lia|].
      rewrite clmul_bits_S, (bits_above q' (Z.of_nat n)) by lia.
      now rewrite Z.lxor_0_l.
Qed.

(** Specification of [gf2_mod]: quotient, remainder, and the degree of
    the remainder. *)
Lemma gf2_mod_spec m :
  0 <= m ->
  exists q, 0 <= q /\ m = Z.lxor (clmul q g) (gf2_mod m g) /\
            0 <= gf2_mod m g < 2 ^ dg.
Proof.
  intros Hm. pose proof (degree_nonneg g) as Hd. fold dg in Hd.
  set (n := Z.to_nat (Z.log2 m + 1)).
  assert (Hb : 0 <= m < 2 ^ (dg + Z.of_nat n)).
  { split; [assumption|]. pose proof (Z.log2_nonneg m).
    destruct (Z.eq_dec m 0) as [-> | Hne]; [apply Z.pow_pos_nonneg; lia|].
    apply Z.lt_le_trans with (2 ^ (Z.log2 m + 1)).
    - apply Z.log2_spec. lia.
    - apply Z.pow_le_mono_r; lia. }
  destruct (mod_from_quotient n m Hb) as (q & Hq & E).
  exists q. rewrite (gf2_mod_steps g n m Hb), (clmul_steps n q Hq).
  repeat split; try lia; try exact E; now apply mod_from_bound.
Qed.

(** The remainder is zero exactly for the multiples of [g]. *)
Lemma gf2_mod_0_iff m :
  0 <= m -> gf2_mod m g = 0 <-> divides g m.
Proof.
  intros Hm. pose proof (degree_nonneg g) as Hd. fold dg in Hd. split.
  - intros E. destruct (gf2_mod_spec m Hm) as (q & Hq & Em & _).
    exists q. split; [exact Hq|]. rewrite E, Z.lxor_0_r in Em. now symmetry.
  - intros (q & Hq & E).
    set (n := Z.to_nat (Z.log2 q + 1)).
    assert (Hqn : 0 <= q < 2 ^ Z.of_nat n).
    { split; [lia|]. pose proof (Z.log2_nonneg q).
      destruct (Z.eq_dec q 0) as [-> | Hne]; [apply Z.pow_pos_nonneg; lia|].
      unfold n. rewrite Z2Nat.id by lia. apply Z.log2_spec. lia. }
    rewrite (clmul_steps n q Hqn) in E.
    assert (Hb : 0 <= m < 2 ^ (dg + Z.of_nat n)).
    { rewrite <- E. apply clmul_bits_bound. }
    destruct (mod_from_quotient n m Hb) as (q2 & Hq2 & E2).
    rewrite (gf2_mod_steps g n m Hb).
    pose proof (mod_from_bound g g_pos n m Hb) as Hr. fold dg in Hr.
    set (r := mod_from n m g) in *.
    assert (Er : clmul_bits n (Z.lxor q q2) g = r).
    { rewrite clmul_bits_lxor, E. rewrite E2 at 1.
      rewrite (Z.lxor_comm (clmul_bits n q2 g) r). apply lxor_cancel_r. }
    assert (Z0 : Z.lxor q q2 = 0).
    { apply (clmul_bits_low n).
      - apply lxor_lt_pow2; lia.
      - rewrite Er. lia. }
    rewrite Z0, clmul_bits_0 in Er. now symmetry.
Qed.

End Product.

(** ** The checksum loop is the long division by the generator *)

Section CrcLoop.

Import Crc GF2.

Lemma generator_pos : 0 < generator.
Proof. reflexivity. Qed.

Lemma generator_degree : degree generator = 8.
Proof. reflexivity. Qed.

Lemma divisor_at i :
  0 <= i <= 15 -> Z.shiftr divisor0 i = Z.shiftl generator (15 - i).
Proof.
  intros Hi. change divisor0 with (Z.shiftl generator 15).
  apply Z.shiftr_shiftl_l. lia.
Qed.

Lemma mask_at i : 0 <= i <= 15 -> Word.u32 (Z.shiftl 1 (23 - i)) = Z.shiftl 1 (23 - i).
Proof.
  intros Hi. apply wrap_small. rewrite Z.shiftl_1_l. split.
  - apply Z.pow_nonneg. lia.
  - apply Z.pow_lt_mono_r; lia.
Qed.

(** One pass of the loop body cancels one coefficient. *)
Lemma crc_body_cancel i row :
  0 <= i <= 15 ->
  crc_body i (row, Z.shiftr divisor0 i) =
  (cancel generator (15 - i) row, Z.shiftr divisor0 (i + 1)).
Proof.
  intros Hi. unfold crc_body.
  rewrite mask_at, land_one_shiftl by lia. f_equal.
  - unfold cancel. rewrite generator_degree, divisor_at by lia.
    replace (8 + (15 - i)) with (23 - i) by lia.
    now destruct (Z.testbit row (23 - i)).
  - apply Z.shiftr_shiftr. lia.
Qed.

(** The loop, entered at pass [16 - n], performs the last [n] steps of
    the division. *)
Lemma crc_loop_mod_from n row :
  (n <= 16)%nat ->
  fst (for_range n (16 - Z.of_nat n) crc_body
         (row, Z.shiftr divisor0 (16 - Z.of_nat n))) =
  mod_from n row generator.
Proof.
  revert row. induction n as [|n IH]; intros row Hn; [reflexivity|].
  cbn [for_range mod_from].
  rewrite crc_body_cancel by lia.
  replace (16 - Z.of_nat (S n) + 1) with (16 - Z.of_nat n) by lia.
  replace (15 - (16 - Z.of_nat (S n))) with (Z.of_nat n) by lia.
  apply IH. lia.
Qed.

Lemma crc_row_mod_from value crc :
  0 <= value < 2 ^ 16 ->
  crc_row value crc = mod_from 16 (Z.lor (Z.shiftl value 8) crc) generator.
Proof.
  intros Hv. unfold crc_row, Word.u32.
  rewrite (wrap_small 32 (Z.shiftl value 8)).
  - apply (crc_loop_mod_from 16). lia.
  - rewrite Z.shiftl_mul_pow2 by lia. lia.
Qed.

Lemma word_rem_bound value : 0 <= value < 2 ^ 16 -> 0 <= word_rem value < 2 ^ 8.
Proof.
  intros Hv. unfold word_rem. rewrite <- generator_degree.
  apply mod_from_bound; [exact generator_pos|].
  rewrite generator_degree, Z.shiftl_mul_pow2 by lia. simpl. lia.
Qed.

Lemma word_rem_lxor a b : word_rem (Z.lxor a b) = Z.lxor (word_rem a) (word_rem b).
Proof. unfold word_rem. rewrite Z.shiftl_lxor. apply mod_from_lxor. Qed.

(** The checksum byte enters the result unchanged. *)
Lemma crc_row_split value crc :
  0 <= value < 2 ^ 16 -> 0 <= crc < 2 ^ 8 ->
  crc_row value crc = Z.lxor (word_rem value) crc.
Proof.
  intros Hv Hc. rewrite crc_row_mod_from by assumption.
  assert (D : Z.land (Z.shiftl value 8) crc = 0).
  { apply Z.bits_inj'. intros j Hj. rewrite Z.land_spec, Z.bits_0.
    destruct (Z_lt_le_dec j 8) as [Hlt | Hge].
    - now rewrite Z.shiftl_spec_low.
    - rewrite (bits_above crc 8 j) by lia. apply andb_false_r. }
  rewrite <- Z.lxor_lor by exact D.
  rewrite mod_from_lxor. unfold word_rem. f_equal.
  apply mod_from_small. now rewrite generator_degree.
Qed.

Lemma crc_row_bound value crc :
  0 <= value < 2 ^ 16 -> 0 <= crc < 2 ^ 8 -> 0 <= crc_row value crc < 2 ^ 8.
Proof.
  intros Hv Hc. rewrite crc_row_split by assumption.
  apply lxor_lt_pow2; [lia | now apply word_rem_bound | assumption].
Qed.

Lemma crc_row_gf2_mod value crc :
  0 <= value < 2 ^ 16 -> 0 <= crc < 2 ^ 8 ->
  crc_row value crc = gf2_mod (value * 256 + crc) generator.
Proof.
  intros Hv Hc. rewrite crc_row_mod_from, lor_concat by lia.
  symmetry. apply gf2_mod_steps. rewrite generator_degree. simpl. lia.
Qed.


Lemma all_from_spec (p : Z -> bool) (n : nat) (i : Z) :
  all_from n i p = true -> forall k, i <= k < i + Z.of_nat n -> p k = true.
Proof.
  revert i. induction n as [|n IH]; intros i H k Hk; [lia|].
  cbn [all_from] in H. apply andb_true_iff in H. destruct H as [Hi Hrest].
  destruct (Z.eq_dec k i) as [-> | Hne]; [exact Hi|].
  apply (IH (i + 1) Hrest). lia.
Qed.

Lemma all_below (p : Z -> bool) (N : Z) :
  all_from (Z.to_nat N) 0 p = true -> forall k, 0 <= k < N -> p k = true.
Proof.
  intros H k Hk. apply (all_from_spec p (Z.to_nat N) 0 H). lia.
Qed.

(** No single coefficient of the data word is a multiple of the generator. *)
Lemma word_rem_pow2 k : 0 <= k < 16 -> word_rem (2 ^ k) <> 0.
Proof.
  intros Hk.
  assert (H : negb (word_rem (2 ^ k) =? 0) = true).
  { revert k Hk. apply (all_below (fun k => negb (word_rem (2 ^ k) =? 0)) 16).
    vm_compute. reflexivity. }
  apply negb_true_iff, Z.eqb_neq in H. exact H.
Qed.

Lemma valid_iff value crc : is_crc_valid value crc = true <-> crc_row value crc = 0.
Proof. apply Z.eqb_eq. Qed.

Lemma invalid_iff value crc : is_crc_valid value crc = false <-> crc_row value crc <> 0.
Proof. apply Z.eqb_neq. Qed.

Lemma pow2_below k n : 0 <= k < n -> 0 <= 2 ^ k < 2 ^ n.
Proof.
  intros Hk. split; [apply Z.pow_nonneg; lia|]. apply Z.pow_lt_mono_r; lia.
Qed.

Lemma pow2_nonzero k : 0 <= k -> 2 ^ k <> 0.
Proof. intros Hk. pose proof (Z.pow_pos_nonneg 2 k). lia. Qed.

(** C1. [is_crc_valid value crc] holds exactly when the 24-bit message
    value * 256 + crc leaves remainder zero in the division over GF(2)
    by x^8 + x^5 + x^4 + 1, that is, when it is a multiple of that
    polynomial; and the row left by the sixteen passes of the loop has
    its low eight bits zero exactly when it is zero. *)
Theorem is_crc_valid_iff_remainder_zero value crc :
  0 <= value < 2 ^ 16 -> 0 <= crc < 2 ^ 8 ->
  (is_crc_valid value crc = true <-> gf2_mod (value * 256 + crc) generator = 0) /\
  (is_crc_valid value crc = true <-> divides generator (value * 256 + crc)) /\
  (Z.land (crc_row value crc) 0xFF = 0 <-> crc_row value crc = 0).
Proof.
  intros Hv Hc.
  assert (A : is_crc_valid value crc = true <->
              gf2_mod (value * 256 + crc) generator = 0).
  { rewrite valid_iff, crc_row_gf2_mod by assumption. tauto. }
  split; [exact A|]. split.
  - rewrite A. apply gf2_mod_0_iff; [exact generator_pos | lia].
  - pose proof (crc_row_bound value crc Hv Hc) as Hb.
    change 0xFF with (Z.ones 8). rewrite Z.land_ones by lia.
    rewrite Z.mod_small by exact Hb. tauto.
Qed.

Lemma is_crc_valid_iff_remainder_zero_witness :
  (is_crc_valid 0x683A 0x7C = true <-> gf2_mod (0x683A * 256 + 0x7C) generator = 0) /\
  (is_crc_valid 0x683A 0x7C = true <-> divides generator (0x683A * 256 + 0x7C)) /\
  (Z.land (crc_row 0x683A 0x7C) 0xFF = 0 <-> crc_row 0x683A 0x7C = 0).
Proof. apply (is_crc_valid_iff_remainder_zero 0x683A 0x7C); simpl; lia. Defined.

(** C2. Every 16-bit word has an 8-bit checksum that [is_crc_valid]
    accepts, and once a pair is accepted, flipping any one of the sixteen
    bits of the word or of the eight bits of the checksum makes
    [is_crc_valid] reject it. *)
Theorem is_crc_valid_single_bit_errors value :
  0 <= value < 2 ^ 16 ->
  (exists crc, 0 <= crc < 2 ^ 8 /\ is_crc_valid value crc = true) /\
  (forall crc, 0 <= crc < 2 ^ 8 -> is_crc_valid value crc = true ->
     (forall k, 0 <= k < 16 -> is_crc_valid (Z.lxor value (2 ^ k)) crc = false) /\
     (forall k, 0 <= k < 8 -> is_crc_valid value (Z.lxor crc (2 ^ k)) = false)).
Proof.
  intros Hv. split.
  - exists (word_rem value). pose proof (word_rem_bound value Hv) as Hb.
    split; [exact Hb|]. apply valid_iff.
    rewrite crc_row_split by assumption. apply Z.lxor_nilpotent.
  - intros crc Hc Hok. apply valid_iff in Hok.
    rewrite crc_row_split in Hok by assumption.
    split; intros k Hk; apply invalid_iff.
    + rewrite crc_row_split;
        [| apply lxor_lt_pow2; [lia | exact Hv | now apply pow2_below] | exact Hc].
      rewrite word_rem_lxor.
      rewrite (Z.lxor_comm (word_rem value)), Z.lxor_assoc, Hok, Z.lxor_0_r.
      now apply word_rem_pow2.
    + rewrite crc_row_split;
        [| exact Hv | apply lxor_lt_pow2; [lia | exact Hc | now apply pow2_below]].
      rewrite <- Z.lxor_assoc, Hok, Z.lxor_0_l.
      apply pow2_nonzero. lia.
Qed.

Lemma is_crc_valid_single_bit_errors_witness :
  (exists crc, 0 <= crc < 2 ^ 8 /\ is_crc_valid 0x683A crc = true) /\
  (forall crc, 0 <= crc < 2 ^ 8 -> is_crc_valid 0x683A crc = true ->
     (forall k, 0 <= k < 16 -> is_crc_valid (Z.lxor 0x683A (2 ^ k)) crc = false) /\
     (forall k, 0 <= k < 8 -> is_crc_valid 0x683A (Z.lxor crc (2 ^ k)) = false)).
Proof. apply (is_crc_valid_single_bit_errors 0x683A); simpl; lia. Defined.

End CrcLoop.

(** ** Running the driver against a back end *)

Import Esp Htu21d Protocol.

(** Unfold the driver down to the calls of the back end. *)
Ltac expose :=
  unfold read_value, htu21d_soft_reset, htu21d_init,
    htu21d_read_user_register, htu21d_write_user_register,
    htu21d_get_resolution, htu21d_set_resolution,
    htu21d_read_temperature, htu21d_read_humidity,
    param_config, driver_install, cmd_link_create, cmd_link_delete,
    master_cmd_begin, task_delay, ESP_ERROR_CHECK_WITHOUT_ABORT,
    ESP_LOGE, ESP_LOGI;
  unfold bind, on_bus, emit, pure, get_port, set_port.

Ltac crunch := cbn [fst snd _port bus trace negb].

(** Resolve the next call of the back end with what is known of it. *)
Ltac known_call H :=
  match goal with
  | |- context [i2c_cmd_link_create ?h0 ?b0] =>
      let E := fresh "E" in
      let X := fresh "X" in
      destruct (i2c_cmd_link_create h0 b0) as [? ?] eqn:E;
      first [ pose proof (eq_trans (eq_sym E) H) as X | pose proof H as X ];
      inversion X; subst; clear X E; crunch
  | |- context [i2c_master_cmd_begin ?h0 ?p0 ?o0 ?t0 ?b0] =>
      let E := fresh "E" in
      let X := fresh "X" in
      destruct (i2c_master_cmd_begin h0 p0 o0 t0 b0) as [[? ?] ?] eqn:E;
      first [ pose proof (eq_trans (eq_sym E) H) as X | pose proof H as X ];
      inversion X; subst; clear X E; crunch
  | |- context [i2c_param_config ?h0 ?p0 ?c0 ?b0] =>
      let E := fresh "E" in
      let X := fresh "X" in
      destruct (i2c_param_config h0 p0 c0 b0) as [? ?] eqn:E;
      first [ pose proof (eq_trans (eq_sym E) H) as X | pose proof H as X ];
      inversion X; subst; clear X E; crunch
  | |- context [i2c_driver_install ?h0 ?p0 ?m0 ?b0] =>
      let E := fresh "E" in
      let X := fresh "X" in
      destruct (i2c_driver_install h0 p0 m0 b0) as [? ?] eqn:E;
      first [ pose proof (eq_trans (eq_sym E) H) as X | pose proof H as X ];
      inversion X; subst; clear X E; crunch
  end.

(** Split on the next call of the back end. *)
Ltac any_call :=
  match goal with
  | |- context [i2c_cmd_link_create ?h0 ?b0] =>
      destruct (i2c_cmd_link_create h0 b0) as [[|] ?]; crunch
  | |- context [i2c_master_cmd_begin ?h0 ?p0 ?o0 ?t0 ?b0] =>
      destruct (i2c_master_cmd_begin h0 p0 o0 t0 b0) as [[? ?] ?]; crunch
  | |- context [i2c_param_config ?h0 ?p0 ?c0 ?b0] =>
      destruct (i2c_param_config h0 p0 c0 b0) as [? ?]; crunch
  | |- context [i2c_driver_install ?h0 ?p0 ?m0 ?b0] =>
      destruct (i2c_driver_install h0 p0 m0 b0) as [? ?]; crunch
  end.

Ltac is_ok := change (ESP_OK =? ESP_OK) with true; crunch.

Ltac not_ok H := rewrite (proj2 (Z.eqb_neq _ ESP_OK) H); crunch.

Section ReadValue.

Context {B : Type} (h : hal B).

(** C6. [read_value] returns 0 whenever a command link cannot be set
    up or the back end reports a status other than [ESP_OK], be it for
    the transaction that writes the command or for the one that reads the
    three bytes; this for every command code. *)
Theorem read_value_failure_returns_zero command s :
  read_fails h command s -> fst (read_value h command s) = 0.
Proof.
  intros [ [b1 H1]
         | ret rx b2 (b1 & H1 & H2) Hne
         | rx b2 (b1 & H1 & H2) (b3 & H3)
         | rx b2 ret rx' b4 (b1 & H1 & H2) (b3 & H3 & H4) Hne ];
    expose; crunch.
  - known_call H1. reflexivity.
  - known_call H1. known_call H2. not_ok Hne.
    now destruct (ret =? ESP_OK).
  - known_call H1. known_call H2. is_ok.
    known_call H3. reflexivity.
  - known_call H1. known_call H2. is_ok.
    known_call H3. known_call H4. not_ok Hne.
    now destruct (ret =? ESP_OK).
Qed.

Lemma land_mask_range x m n :
  0 <= n -> 0 <= x < 2 ^ n -> 0 <= m -> 0 <= Z.land x m < 2 ^ n.
Proof.
  intros Hn Hx Hm.
  assert (H0 : 0 <= Z.land x m) by (apply Z.land_nonneg; lia).
  split; [exact H0|]. apply lt_pow2_of_bits; [exact H0 | exact Hn |].
  intros j Hj. rewrite Z.land_spec, (bits_above x n j) by lia. reflexivity.
Qed.

(** The word [read_value] assembles and the value it returns. *)
Lemma assemble_word msb lsb :
  0 <= msb < 2 ^ 8 -> 0 <= lsb < 2 ^ 8 ->
  Word.u16 (Z.lor (Z.shiftl (Word.u8 msb) 8) (Word.u8 lsb)) = msb * 256 + lsb.
Proof.
  intros Hm Hl. unfold Word.u8, Word.u16.
  rewrite !(wrap_small 8), lor_concat by lia.
  apply wrap_small. lia.
Qed.

Lemma masked_word w :
  0 <= w < 2 ^ 16 -> Word.u16 (Z.land w 0xFFFC) = Z.land w 0xFFFC.
Proof.
  intros Hw. apply wrap_small. apply land_mask_range; lia.
Qed.

(** C5. When both transactions succeed, [read_value] returns the word
    whose high byte is the first data byte and whose low byte is the
    second, with the two status bits cleared; the checksum byte has no
    part in the value: a checksum that does not verify only adds a line
    to the log. *)
Theorem read_value_success_returns_masked_word command s msb lsb crc :
  read_succeeds h command s msb lsb crc ->
  0 <= msb < 2 ^ 8 -> 0 <= lsb < 2 ^ 8 -> 0 <= crc < 2 ^ 8 ->
  fst (read_value h command s) = Z.land (msb * 256 + lsb) 0xFFFC /\
  Z.land (fst (read_value h command s)) 3 = 0 /\
  hd_error (trace (snd (read_value h command s))) =
    Some (if Crc.is_crc_valid (msb * 256 + lsb) crc
          then EvLinkDelete
          else EvLog LogError "CRC is invalid.").
Proof.
  intros (rx & b2 & b4 & (b1 & H1 & H2) & (b3 & H3 & H4)) Hm Hl Hc.
  assert (E : read_value h command s =
              (Z.land (msb * 256 + lsb) 0xFFFC,
               snd (read_value h command s)) /\
              hd_error (trace (snd (read_value h command s))) =
              Some (if Crc.is_crc_valid (msb * 256 + lsb) crc
                    then EvLinkDelete
                    else EvLog LogError "CRC is invalid.")).
  { expose; crunch.
    known_call H1. known_call H2. is_ok.
    known_call H3. known_call H4. is_ok.
    unfold stored; cbn [nth].
    replace (Word.u8 crc) with crc by (symmetry; now apply wrap_small).
    rewrite assemble_word, masked_word by lia.
    destruct (Crc.is_crc_valid (msb * 256 + lsb) crc); crunch; split; reflexivity. }
  destruct E as [E1 E2]. rewrite E1. cbn [fst]. repeat split.
  - rewrite <- Z.land_assoc. apply Z.land_0_r.
  - exact E2.
Qed.

End ReadValue.

(** ** The write path: user register and soft reset *)

Ltac split_eqb :=
  match goal with
  | |- context [Z.eqb ?a ?b] =>
      is_var a; let E := fresh "E" in destruct (Z.eqb a b) eqn:E; crunch
  end.

Lemma status_table_keys ret :
  ~ In ret (map fst status_table) ->
  (ret =? ESP_ERR_INVALID_ARG) = false /\ (ret =? ESP_FAIL) = false /\
  (ret =? ESP_ERR_INVALID_STATE) = false /\ (ret =? ESP_ERR_TIMEOUT) = false.
Proof.
  intros Hn. repeat split; apply Z.eqb_neq; intros ->; apply Hn; cbn; tauto.
Qed.

Section WritePath.

Context {B : Type} (h : hal B).

(** C7. For each of the four categories of transport failure,
    [htu21d_write_user_register] returns the status that belongs to it,
    [htu21d_soft_reset] returns the same status for the same failure, and
    the four statuses are pairwise different (and none is the success
    status). *)
Theorem write_path_maps_transport_errors s value ret status :
  In (ret, status) status_table ->
  (forall rx b',
      answers h (_port s) (txn_write_reg value) (bus s) ret rx b' ->
      fst (htu21d_write_user_register h value s) = status) /\
  (forall rx b',
      answers h (_port s) (txn_command SOFT_RESET) (bus s) ret rx b' ->
      fst (htu21d_soft_reset h s) = status) /\
  NoDup (map snd status_table) /\
  status <> HTU21D_ERR_OK.
Proof.
  intros Hin. repeat split.
  - intros rx b' (b1 & H1 & H2). expose; crunch.
    known_call H1. known_call H2.
    cbn in Hin. destruct Hin as [E | [E | [E | [E | []]]]];
      inversion E; subst; reflexivity.
  - intros rx b' (b1 & H1 & H2). expose; crunch.
    known_call H1. known_call H2.
    cbn in Hin. destruct Hin as [E | [E | [E | [E | []]]]];
      inversion E; subst; reflexivity.
  - cbn. repeat constructor; cbn; intuition discriminate.
  - cbn in Hin. destruct Hin as [E | [E | [E | [E | []]]]];
      inversion E; subst; discriminate.
Qed.

(** C10. A status of the back end that is neither [ESP_OK] nor one of
    the four listed categories is reported as success by both functions
    of the write path, and [htu21d_soft_reset] then goes on to its
    15 ms delay. *)
Theorem write_path_unlisted_error_reports_ok s value ret :
  ret <> ESP_OK ->
  ~ In ret (map fst status_table) ->
  (forall rx b',
      answers h (_port s) (txn_write_reg value) (bus s) ret rx b' ->
      fst (htu21d_write_user_register h value s) = HTU21D_ERR_OK) /\
  (forall rx b',
      answers h (_port s) (txn_command SOFT_RESET) (bus s) ret rx b' ->
      fst (htu21d_soft_reset h s) = HTU21D_ERR_OK /\
      trace (snd (htu21d_soft_reset h s)) =
        EvLog LogInfo "HTU21D sensor soft reset was successful."
        :: EvDelay (pdMS_TO_TICKS h 15)
        :: EvLinkDelete
        :: EvLog LogError "ESP_ERROR_CHECK_WITHOUT_ABORT failed"
        :: EvCmdBegin (_port s) (txn_command SOFT_RESET) (timeout_ticks h) ret rx
        :: EvLinkCreate true
        :: trace s).
Proof.
  intros Hne Hn.
  destruct (status_table_keys ret Hn) as (E1 & E2 & E3 & E4).
  split.
  - intros rx b' (b1 & H1 & H2). expose; crunch.
    known_call H1. known_call H2.
    rewrite E1, E2, E3, E4. now destruct (ret =? ESP_OK).
  - intros rx b' (b1 & H1 & H2). expose; crunch.
    known_call H1. known_call H2.
    rewrite E1, E2, E3, E4. not_ok Hne. split; reflexivity.
Qed.

End WritePath.

(** ** Initialisation *)

Lemma events_since_prefix {B} (s s' : driver B) (new : list event) :
  trace s' = new ++ trace s -> events_since s s' = new.
Proof.
  intros E. unfold events_since. rewrite E, length_app.
  replace (List.length new + List.length (trace s) - List.length (trace s))%nat
    with (List.length new + 0)%nat by lia.
  rewrite firstn_app_2. cbn [firstn]. apply app_nil_r.
Qed.

(** The events consed onto [old] in the list [l]. *)
Ltac prefix_of l old :=
  match l with
  | old => constr:(@nil event)
  | ?e :: ?l' => let p := prefix_of l' old in constr:(e :: p)
  end.

Ltac name_events :=
  match goal with
  | |- context [events_since ?s ?s'] =>
      let t := eval cbn in (trace s') in
      let t0 := eval cbn in (trace s) in
      let p := prefix_of t t0 in
      rewrite (events_since_prefix s s' p eq_refl)
  end.

Section Init.

Context {B : Type} (h : hal B).

(** In every run of [htu21d_init], whatever the back end answers, the
    soft-reset command is only sent after a probe that succeeded. *)
Lemma init_monitor port sda_pin scl_pin sda_pullup scl_pullup s :
  reset_only_after_probe false
    (rev (events_since s
            (snd (htu21d_init h port sda_pin scl_pin sda_pullup scl_pullup s))))
  = true.
Proof.
  expose; crunch.
  any_call. split_eqb; [| name_events; reflexivity].
  any_call. split_eqb; [| name_events; reflexivity].
  any_call; [| name_events; reflexivity].
  any_call. split_eqb; [| name_events; reflexivity].
  apply Z.eqb_eq in E1. subst.
  expose; crunch.
  any_call; [| name_events; reflexivity].
  any_call.
  repeat split_eqb; name_events; reflexivity.
Qed.

(** C8. If the presence probe is answered with anything but [ESP_OK],
    [htu21d_init] returns the not-found status and its trace holds no
    soft-reset transaction; if the probe is answered with [ESP_OK], the
    result of [htu21d_init] is the result of [htu21d_soft_reset] run from
    there; and in every run the soft-reset command is sent only after a
    probe that succeeded. *)
Theorem init_probe_gates_soft_reset port sda_pin scl_pin sda_pullup scl_pullup s :
  let run := htu21d_init h port sda_pin scl_pin sda_pullup scl_pullup s in
  reset_only_after_probe false (rev (events_since s (snd run))) = true /\
  forall ret rx b',
    probe_answers h port sda_pin scl_pin sda_pullup scl_pullup (bus s) ret rx b' ->
    (ret <> ESP_OK ->
       fst run = HTU21D_ERR_NOTFOUND /\
       existsb is_soft_reset (events_since s (snd run)) = false) /\
    (ret = ESP_OK ->
       let reset :=
         htu21d_soft_reset h
           (probed h port sda_pin scl_pin sda_pullup scl_pullup s rx b') in
       fst run = fst reset /\ bus (snd run) = bus (snd reset)).
Proof.
  intros run. split; [apply init_monitor|].
  intros ret rx b' (b1 & b2 & H1 & H2 & (b3 & H3 & H4)). subst run.
  unfold htu21d_init, param_config, driver_install, cmd_link_create,
    master_cmd_begin, ESP_LOGE, ESP_LOGI.
  unfold bind, on_bus, emit, pure, set_port. crunch.
  known_call H1. is_ok. known_call H2. is_ok. known_call H3. known_call H4.
  split.
  - intros Hne. not_ok Hne. split; [reflexivity|].
    name_events. reflexivity.
  - intros ->. is_ok.
    match goal with
    | |- context [htu21d_soft_reset h ?s0] =>
        change s0 with (probed h port sda_pin scl_pin sda_pullup scl_pullup s rx b')
    end.
    destruct (htu21d_soft_reset h _) as [a s'].
    destruct (Z.eqb_spec a HTU21D_ERR_OK) as [-> | Hne]; crunch; split; reflexivity.
Qed.

End Init.

(** ** The public read functions *)

Lemma f_same_refl x : Ieee.f_same x x = true.
Proof.
  destruct x as [s | s | | s m e]; cbn.
  - apply Bool.eqb_reflx.
  - apply Bool.eqb_reflx.
  - reflexivity.
  - now rewrite Bool.eqb_reflx, Pos.eqb_refl, Z.eqb_refl.
Qed.

Lemma f_same_false x y : Ieee.f_same x y = false -> x <> y.
Proof. intros E ->. rewrite f_same_refl in E. discriminate. Qed.

(** Every non-zero raw word with clear status bits converts to a value
    other than -999 and other than the conversion of 0. *)
Lemma readings_are_distinct k :
  1 <= k < 16384 -> reading_is_distinct k = true.
Proof.
  intros Hk.
  assert (H : (k =? 0) || reading_is_distinct k = true).
  { apply (all_below (fun k => (k =? 0) || reading_is_distinct k) 16384).
    - vm_compute. reflexivity.
    - lia. }
  apply orb_true_iff in H. destruct H as [H | H]; [|exact H].
  apply Z.eqb_eq in H. lia.
Qed.

Section PublicReads.

Context {B : Type} (h : hal B).

Lemma read_value_range command s :
  0 <= fst (read_value h command s) < 2 ^ 16 /\
  Z.land (fst (read_value h command s)) 3 = 0.
Proof.
  expose; crunch.
  any_call; [| split; [lia | reflexivity]].
  any_call. split_eqb; [| split; [lia | reflexivity]].
  any_call; [| split; [lia | reflexivity]].
  any_call. split_eqb; [| split; [lia | reflexivity]].
  match goal with
  | |- context [Crc.is_crc_valid ?v ?c] => destruct (Crc.is_crc_valid v c)
  end; crunch.
  all: split; [apply wrap_range; lia|].
  all: rewrite masked_word by (apply wrap_range; lia).
  all: rewrite <- Z.land_assoc; apply Z.land_0_r.
Qed.

Lemma read_value_quad command s :
  exists k, 0 <= k < 16384 /\ fst (read_value h command s) = 4 * k.
Proof.
  destruct (read_value_range command s) as [Hr Hz].
  change 3 with (Z.ones 2) in Hz. rewrite Z.land_ones in Hz by lia.
  change (2 ^ 2) with 4 in Hz. change (2 ^ 16) with 65536 in Hr.
  set (v := fst (read_value h command s)) in *.
  pose proof (Z.div_mod v 4 ltac:(lia)) as D.
  exists (v / 4). split; [split|].
  - apply Z.div_pos; lia.
  - apply Z.div_lt_upper_bound; lia.
  - lia.
Qed.

(** The values of the public read functions in terms of [read_value]. *)
Lemma read_temperature_value s :
  fst (htu21d_read_temperature h s) =
  if fst (read_value h TRIGGER_TEMP_MEASURE_NOHOLD s) =? 0
  then read_failed
  else temperature_of_raw (fst (read_value h TRIGGER_TEMP_MEASURE_NOHOLD s)).
Proof.
  unfold htu21d_read_temperature, bind, pure.
  destruct (read_value h TRIGGER_TEMP_MEASURE_NOHOLD s) as [raw s']. cbn [fst].
  now destruct (raw =? 0).
Qed.

Lemma read_humidity_value s :
  fst (htu21d_read_humidity h s) =
  if fst (read_value h TRIGGER_HUMD_MEASURE_NOHOLD s) =? 0
  then read_failed
  else humidity_of_raw (fst (read_value h TRIGGER_HUMD_MEASURE_NOHOLD s)).
Proof.
  unfold htu21d_read_humidity, bind, pure.
  destruct (read_value h TRIGGER_HUMD_MEASURE_NOHOLD s) as [raw s']. cbn [fst].
  now destruct (raw =? 0).
Qed.

(** C3, as the code has it.  The public read functions return the
    linear transform of the raw word [read_value] hands them,
    raw * 175.72 / 65536.0 - 46.85 and raw * 125.0 / 65536.0 - 6.0,
    whenever that word is not 0; when it is 0 they return -999; and
    they do nothing on the bus besides that call of [read_value]. *)
Theorem read_functions_convert_nonzero_raw s :
  htu21d_read_temperature h s =
    (let raw := fst (read_value h TRIGGER_TEMP_MEASURE_NOHOLD s) in
     if raw =? 0 then read_failed else temperature_of_raw raw,
     snd (read_value h TRIGGER_TEMP_MEASURE_NOHOLD s)) /\
  htu21d_read_humidity h s =
    (let raw := fst (read_value h TRIGGER_HUMD_MEASURE_NOHOLD s) in
     if raw =? 0 then read_failed else humidity_of_raw raw,
     snd (read_value h TRIGGER_HUMD_MEASURE_NOHOLD s)).
Proof.
  split.
  - rewrite (surjective_pairing (htu21d_read_temperature h s)).
    rewrite read_temperature_value. f_equal.
    unfold htu21d_read_temperature, bind, pure.
    destruct (read_value h TRIGGER_TEMP_MEASURE_NOHOLD s) as [raw s']. cbn [snd].
    now destruct (raw =? 0).
  - rewrite (surjective_pairing (htu21d_read_humidity h s)).
    rewrite read_humidity_value. f_equal.
    unfold htu21d_read_humidity, bind, pure.
    destruct (read_value h TRIGGER_HUMD_MEASURE_NOHOLD s) as [raw s']. cbn [snd].
    now destruct (raw =? 0).
Qed.

(** C9. Each public read function returns -999 exactly when
    [read_value] returned 0, and never returns the value its formula
    has for raw 0 (-46.85 for the temperature, -6.0 for the humidity). *)
Theorem read_sentinel_iff_raw_zero s :
  (fst (htu21d_read_temperature h s) = read_failed <->
   fst (read_value h TRIGGER_TEMP_MEASURE_NOHOLD s) = 0) /\
  (fst (htu21d_read_humidity h s) = read_failed <->
   fst (read_value h TRIGGER_HUMD_MEASURE_NOHOLD s) = 0) /\
  fst (htu21d_read_temperature h s) <> temperature_of_raw 0 /\
  fst (htu21d_read_humidity h s) <> humidity_of_raw 0.
Proof.
  rewrite read_temperature_value, read_humidity_value.
  destruct (read_value_quad TRIGGER_TEMP_MEASURE_NOHOLD s) as (kt & Hkt & ->).
  destruct (read_value_quad TRIGGER_HUMD_MEASURE_NOHOLD s) as (ku & Hku & ->).
  assert (Z0 : Ieee.f_same read_failed (temperature_of_raw 0) = false)
    by (vm_compute; reflexivity).
  assert (Z1 : Ieee.f_same read_failed (humidity_of_raw 0) = false)
    by (vm_compute; reflexivity).
  assert (Dt : kt <> 0 ->
               temperature_of_raw (4 * kt) <> read_failed /\
               temperature_of_raw (4 * kt) <> temperature_of_raw 0).
  { intros Hne. pose proof (readings_are_distinct kt ltac:(lia)) as D.
    unfold reading_is_distinct in D. cbv zeta in D.
    rewrite !andb_true_iff, !negb_true_iff in D.
    destruct D as [[[D1 D2] _] _]. split; now apply f_same_false. }
  assert (Du : ku <> 0 ->
               humidity_of_raw (4 * ku) <> read_failed /\
               humidity_of_raw (4 * ku) <> humidity_of_raw 0).
  { intros Hne. pose proof (readings_are_distinct ku ltac:(lia)) as D.
    unfold reading_is_distinct in D. cbv zeta in D.
    rewrite !andb_true_iff, !negb_true_iff in D.
    destruct D as [[_ D3] D4]. split; now apply f_same_false. }
  repeat split.
  - intros E. destruct (Z.eqb_spec (4 * kt) 0) as [E0 | Hne]; [exact E0|].
    exfalso. apply (proj1 (Dt ltac:(lia))). exact E.
  - intros ->. reflexivity.
  - intros E. destruct (Z.eqb_spec (4 * ku) 0) as [E0 | Hne]; [exact E0|].
    exfalso. apply (proj1 (Du ltac:(lia))). exact E.
  - intros ->. reflexivity.
  - destruct (Z.eqb_spec (4 * kt) 0) as [E0 | Hne].
    + now apply f_same_false.
    + apply (proj2 (Dt ltac:(lia))).
  - destruct (Z.eqb_spec (4 * ku) 0) as [E0 | Hne].
    + now apply f_same_false.
    + apply (proj2 (Du ltac:(lia))).
Qed.

End PublicReads.

(** ** Resolution *)

Lemma lor_lt_pow2 a b n :
  0 <= n -> 0 <= a < 2 ^ n -> 0 <= b < 2 ^ n -> 0 <= Z.lor a b < 2 ^ n.
Proof.
  intros Hn Ha Hb.
  assert (H0 : 0 <= Z.lor a b) by (apply Z.lor_nonneg; lia).
  split; [exact H0|]. apply lt_pow2_of_bits; [exact H0 | exact Hn |].
  intros j Hj. rewrite Z.lor_spec.
  now rewrite (bits_above a n j), (bits_above b n j) by lia.
Qed.

Section Resolution.

Context {B : Type} (h : hal B).

(** What [htu21d_set_resolution] writes: the resolution bits the register
    already has, with those of the argument added; no bit is cleared
    from the old resolution. *)
Lemma set_resolution_writes resolution s reg s' :
  htu21d_read_user_register h s = (reg, s') ->
  0 <= reg < 2 ^ 8 -> 0 <= resolution < 2 ^ 8 ->
  htu21d_set_resolution h resolution s =
  htu21d_write_user_register h
    (Z.lor (Z.land reg 0x81) (Z.land resolution 0x81)) s'.
Proof.
  intros E Hreg Hres. unfold htu21d_set_resolution, bind. rewrite E.
  unfold Word.u8.
  rewrite (wrap_small 8 (Z.land reg 0x81)) by (apply land_mask_range; lia).
  rewrite (wrap_small 8 (Z.land resolution 0x81)) by (apply land_mask_range; lia).
  rewrite wrap_small; [reflexivity|].
  apply lor_lt_pow2; [lia | |]; apply land_mask_range; lia.
Qed.

End Resolution.

(** ** Runs on the simulated sensor *)

Import Sim.

Ltac sim_answers := unfold answers; eexists; split; reflexivity.
Ltac sim_refuses := unfold refuses; eexists; reflexivity.

(** The monitor does reject a soft reset that no probe precedes, and one
    that follows a failed probe. *)
Example monitor_rejects_unprobed_reset :
  reset_only_after_probe false
    [EvCmdBegin 0 (txn_command SOFT_RESET) 100 ESP_OK []] = false /\
  reset_only_after_probe false
    [EvCmdBegin 0 txn_probe 100 ESP_FAIL [];
     EvCmdBegin 0 (txn_command SOFT_RESET) 100 ESP_OK []] = false /\
  reset_only_after_probe false
    [EvCmdBegin 0 txn_probe 100 ESP_OK [];
     EvCmdBegin 0 (txn_command SOFT_RESET) 100 ESP_OK []] = true.
Proof. repeat split; reflexivity. Qed.

(** The humidity example of the data sheet: 0x683A with checksum 0x7C. *)
Example read_value_datasheet_example :
  fst (read_value sim TRIGGER_HUMD_MEASURE_NOHOLD (boot (fresh 0x68 0x3A 0x7C)))
  = 0x6838.
Proof. vm_compute. reflexivity. Qed.

Lemma read_value_success_returns_masked_word_witness :
  fst (read_value sim TRIGGER_HUMD_MEASURE_NOHOLD (boot (fresh 0x68 0x3A 0x7D)))
    = Z.land (0x68 * 256 + 0x3A) 0xFFFC /\
  Z.land (fst (read_value sim TRIGGER_HUMD_MEASURE_NOHOLD
                 (boot (fresh 0x68 0x3A 0x7D)))) 3 = 0 /\
  hd_error (trace (snd (read_value sim TRIGGER_HUMD_MEASURE_NOHOLD
                          (boot (fresh 0x68 0x3A 0x7D))))) =
    Some (if Crc.is_crc_valid (0x68 * 256 + 0x3A) 0x7D
          then EvLinkDelete
          else EvLog LogError "CRC is invalid.").
Proof.
  apply (read_value_success_returns_masked_word sim TRIGGER_HUMD_MEASURE_NOHOLD
           (boot (fresh 0x68 0x3A 0x7D)) 0x68 0x3A 0x7D).
  - unfold read_succeeds. do 3 eexists. split; sim_answers.
  - simpl; lia.
  - simpl; lia.
  - simpl; lia.
Defined.

Lemma read_value_failure_returns_zero_witness :
  fst (read_value sim TRIGGER_TEMP_MEASURE_NOHOLD (faulty ESP_ERR_TIMEOUT)) = 0.
Proof.
  apply read_value_failure_returns_zero.
  eapply (fails_command sim _ _ ESP_ERR_TIMEOUT).
  - sim_answers.
  - discriminate.
Defined.

Lemma write_path_maps_transport_errors_witness :
  fst (htu21d_write_user_register sim 0x81 (faulty ESP_ERR_TIMEOUT))
    = HTU21D_ERR_TIMEOUT /\
  fst (htu21d_soft_reset sim (faulty ESP_ERR_TIMEOUT)) = HTU21D_ERR_TIMEOUT.
Proof.
  destruct (write_path_maps_transport_errors sim (faulty ESP_ERR_TIMEOUT) 0x81
              ESP_ERR_TIMEOUT HTU21D_ERR_TIMEOUT) as (Hw & Hr & _ & _).
  - simpl. tauto.
  - split; [eapply Hw | eapply Hr]; sim_answers.
Defined.

Lemma write_path_unlisted_error_reports_ok_witness :
  fst (htu21d_write_user_register sim 0x81 (faulty ESP_ERR_NO_MEM))
    = HTU21D_ERR_OK /\
  fst (htu21d_soft_reset sim (faulty ESP_ERR_NO_MEM)) = HTU21D_ERR_OK /\
  In (EvDelay (pdMS_TO_TICKS sim 15))
     (trace (snd (htu21d_soft_reset sim (faulty ESP_ERR_NO_MEM)))).
Proof.
  destruct (write_path_unlisted_error_reports_ok sim (faulty ESP_ERR_NO_MEM) 0x81
              ESP_ERR_NO_MEM) as (Hw & Hr).
  - discriminate.
  - simpl. intuition discriminate.
  - split; [eapply Hw; sim_answers|].
    edestruct Hr as (H1 & H2); [sim_answers|].
    split; [exact H1|]. rewrite H2. simpl. tauto.
Defined.

Lemma init_probe_gates_soft_reset_witness :
  fst (htu21d_init sim 0 1 2 1 1 (faulty ESP_FAIL)) = HTU21D_ERR_NOTFOUND /\
  existsb is_soft_reset
    (events_since (faulty ESP_FAIL)
       (snd (htu21d_init sim 0 1 2 1 1 (faulty ESP_FAIL)))) = false /\
  fst (htu21d_init sim 0 1 2 1 1 (boot (fresh 0 0 0))) = HTU21D_ERR_OK.
Proof.
  destruct (init_probe_gates_soft_reset sim 0 1 2 1 1 (faulty ESP_FAIL))
    as (_ & Hbad).
  destruct (init_probe_gates_soft_reset sim 0 1 2 1 1 (boot (fresh 0 0 0)))
    as (_ & Hgood).
  edestruct (Hbad ESP_FAIL) as ((H1 & H2) & _).
  - unfold probe_answers. do 2 eexists. repeat split; try reflexivity. sim_answers.
  - discriminate.
  - edestruct (Hgood ESP_OK) as (_ & H3).
    + unfold probe_answers. do 2 eexists. repeat split; try reflexivity. sim_answers.
    + destruct (H3 eq_refl) as (H4 & _).
      split; [exact H1|]. split; [exact H2|]. rewrite H4. reflexivity.
Defined.

(** C3, as the specification states it, fails: the sensor answers both
    transactions with the raw word 0 (and its checksum 0), and neither
    read function returns the value of its formula at 0. *)
Lemma read_functions_raw_zero_counterexample :
  read_succeeds sim TRIGGER_TEMP_MEASURE_NOHOLD (boot (fresh 0 0 0)) 0 0 0 /\
  read_succeeds sim TRIGGER_HUMD_MEASURE_NOHOLD (boot (fresh 0 0 0)) 0 0 0 /\
  fst (htu21d_read_temperature sim (boot (fresh 0 0 0))) <> temperature_of_raw 0 /\
  fst (htu21d_read_humidity sim (boot (fresh 0 0 0))) <> humidity_of_raw 0.
Proof.
  repeat split.
  - unfold read_succeeds. do 3 eexists. split; sim_answers.
  - unfold read_succeeds. do 3 eexists. split; sim_answers.
  - apply f_same_false. vm_compute. reflexivity.
  - apply f_same_false. vm_compute. reflexivity.
Qed.

(** On the simulated sensor, for every content of the user register and
    each of the four resolutions: what is read back is the new
    resolution together with the resolution bits that were set before. *)
Lemma round_trip_keeps_old_bits reg r :
  0 <= reg < 256 -> In r [0x00; 0x01; 0x80; 0x81] ->
  round_trip reg r = Z.lor (Z.land reg 0x81) r.
Proof.
  intros Hreg Hr.
  assert (H : forallb (fun r => round_trip reg r =? Z.lor (Z.land reg 0x81) r)
                      [0x00; 0x01; 0x80; 0x81] = true).
  { revert reg Hreg.
    apply (all_below
             (fun reg => forallb (fun r => round_trip reg r =? Z.lor (Z.land reg 0x81) r)
                                 [0x00; 0x01; 0x80; 0x81]) 256).
    vm_compute. reflexivity. }
  rewrite forallb_forall in H. apply Z.eqb_eq. now apply H.
Qed.

(** C4 does not hold of the code.  From power-up, select resolution
    0x80 and then resolution 0x00: both calls report success, and the
    register and [htu21d_get_resolution] still say 0x80.  The same from
    any state in which the register holds 0x80. *)
Theorem set_resolution_keeps_old_resolution_bits :
  fst (htu21d_set_resolution sim 0x80 (boot (fresh 0 0 0))) = HTU21D_ERR_OK /\
  fst (htu21d_set_resolution sim 0x00
         (snd (htu21d_set_resolution sim 0x80 (boot (fresh 0 0 0)))))
    = HTU21D_ERR_OK /\
  fst (htu21d_get_resolution sim
         (snd (htu21d_set_resolution sim 0x00
                 (snd (htu21d_set_resolution sim 0x80 (boot (fresh 0 0 0)))))))
    = 0x80 /\
  user_reg (bus (snd (htu21d_set_resolution sim 0x00
                        (boot (with_reg 0x80 (fresh 0 0 0)))))) = 0x80 /\
  round_trip 0x80 0x00 = 0x80.
Proof.
  split; [vm_compute; reflexivity|].
  split; [vm_compute; reflexivity|].
  split; [vm_compute; reflexivity|].
  split; [vm_compute; reflexivity|].
  rewrite round_trip_keeps_old_bits; [reflexivity | lia | simpl; tauto].
Qed.

(** The formulas at raw 0 do have the values the data sheet gives,
    -46.85 and -6.0 (as the nearest [float]); the read functions do not
    return them. *)
Example formulas_at_raw_zero :
  temperature_of_raw 0 = Ieee.f_of_double (Ieee.d_lit (-4685) 100) /\
  humidity_of_raw 0 = Ieee.f_of_int (-6).
Proof. split; vm_compute; reflexivity. Qed.

(** With no resolution bit set beforehand the round trip does work, and
    the other bits of the register are then cleared. *)
Example set_resolution_from_clear_bits :
  fst (htu21d_get_resolution sim
         (snd (htu21d_set_resolution sim 0x81
                 (boot (with_reg 0x3A (fresh 0 0 0)))))) = 0x81 /\
  user_reg (bus (snd (htu21d_set_resolution sim 0x81
                        (boot (with_reg 0x3A (fresh 0 0 0)))))) = 0x81.
Proof. split; vm_compute; reflexivity. Qed.

(** * Part III: further properties of the driver *)

(** ** Which errors the checksum detects *)

Section CrcErrors.

Import Crc GF2 Observe.

(** The verifier is linear: corrupting an accepted pair with a pattern
    gives what the verifier says of the pattern alone. *)
Lemma is_crc_valid_lxor value crc ev ec :
  0 <= value < 2 ^ 16 -> 0 <= crc < 2 ^ 8 ->
  0 <= ev < 2 ^ 16 -> 0 <= ec < 2 ^ 8 ->
  is_crc_valid value crc = true ->
  is_crc_valid (Z.lxor value ev) (Z.lxor crc ec) = is_crc_valid ev ec.
Proof.
  intros Hv Hc Hev Hec Hok. apply valid_iff in Hok.
  rewrite crc_row_split in Hok by assumption.
  assert (E : crc_row (Z.lxor value ev) (Z.lxor crc ec) = crc_row ev ec).
  { rewrite !crc_row_split; try assumption; try (apply lxor_lt_pow2; lia).
    rewrite word_rem_lxor, lxor_swap, Hok. apply Z.lxor_0_l. }
  destruct (is_crc_valid ev ec) eqn:V.
  - apply valid_iff. apply valid_iff in V. now rewrite E.
  - apply invalid_iff. apply invalid_iff in V. now rewrite E.
Qed.

Lemma pattern_parts e :
  0 <= e < 2 ^ 24 ->
  0 <= word_part e < 2 ^ 16 /\ 0 <= crc_part e < 2 ^ 8 /\
  word_part e * 256 + crc_part e = e.
Proof.
  intros He. unfold word_part, crc_part.
  change 0xFF with (Z.ones 8). rewrite Z.land_ones, Z.shiftr_div_pow2 by lia.
  change (2 ^ 8) with 256. change (2 ^ 16) with 65536. change (2 ^ 24) with 16777216 in He.
  pose proof (Z.div_mod e 256 ltac:(lia)).
  pose proof (Z.mod_pos_bound e 256 ltac:(lia)).
  repeat split; lia.
Qed.

Lemma undetected_eq e : undetected e = is_crc_valid (word_part e) (crc_part e).
Proof. reflexivity. Qed.

(** X1. Once a pair is accepted, a 24-bit error pattern laid over it
    goes undetected exactly when the pattern on its own is an accepted
    pair. *)
Theorem crc_error_undetected_iff_codeword value crc e :
  0 <= value < 2 ^ 16 -> 0 <= crc < 2 ^ 8 -> 0 <= e < 2 ^ 24 ->
  is_crc_valid value crc = true ->
  is_crc_valid (Z.lxor value (word_part e)) (Z.lxor crc (crc_part e)) = undetected e.
Proof.
  intros Hv Hc He Hok. destruct (pattern_parts e He) as (Hw & Hp & _).
  rewrite undetected_eq. now apply is_crc_valid_lxor.
Qed.

Lemma crc_error_undetected_iff_codeword_witness :
  is_crc_valid (Z.lxor 0x683A (word_part 0x13100)) (Z.lxor 0x7C (crc_part 0x13100))
  = undetected 0x13100.
Proof.
  apply (crc_error_undetected_iff_codeword 0x683A 0x7C 0x13100);
    [simpl; lia | simpl; lia | simpl; lia | reflexivity].
Defined.

(** X2. A data word has one accepted checksum only. *)
Theorem crc_checksum_unique value c1 c2 :
  0 <= value < 2 ^ 16 -> 0 <= c1 < 2 ^ 8 -> 0 <= c2 < 2 ^ 8 ->
  is_crc_valid value c1 = true -> is_crc_valid value c2 = true -> c1 = c2.
Proof.
  intros Hv H1 H2 V1 V2. apply valid_iff in V1, V2.
  rewrite crc_row_split in V1, V2 by assumption.
  apply Z.lxor_eq in V1, V2. congruence.
Qed.

Lemma crc_checksum_unique_witness : 0x7C = 0x7C.
Proof.
  apply (crc_checksum_unique 0x683A 0x7C 0x7C);
    [simpl; lia | simpl; lia | simpl; lia | reflexivity | reflexivity].
Defined.

Lemma corrupted_invalid value crc e :
  0 <= value < 2 ^ 16 -> 0 <= crc < 2 ^ 8 -> 0 <= e < 2 ^ 24 ->
  is_crc_valid value crc = true -> undetected e = false ->
  is_crc_valid (Z.lxor value (word_part e)) (Z.lxor crc (crc_part e)) = false.
Proof.
  intros Hv Hc He Hok Hd. destruct (pattern_parts e He) as (Hw & Hp & _).
  rewrite is_crc_valid_lxor by assumption. rewrite <- undetected_eq. exact Hd.
Qed.

(** X3. Flipping any two of the 24 bits of an accepted pair makes the
    verifier reject it. *)
Theorem crc_detects_double_bit_errors value crc i j :
  0 <= value < 2 ^ 16 -> 0 <= crc < 2 ^ 8 -> 0 <= i < j -> j < 24 ->
  is_crc_valid value crc = true ->
  is_crc_valid (Z.lxor value (word_part (Z.lxor (2 ^ i) (2 ^ j))))
               (Z.lxor crc (crc_part (Z.lxor (2 ^ i) (2 ^ j)))) = false.
Proof.
  intros Hv Hc Hi Hj Hok.
  apply corrupted_invalid; try assumption.
  - apply lxor_lt_pow2; [lia | |]; apply pow2_below; lia.
  - assert (P : pairs_detected j = true).
    { apply (all_below pairs_detected 24); [vm_compute; reflexivity | lia]. }
    unfold pairs_detected in P.
    pose proof (all_below _ j P i ltac:(lia)) as D. cbv beta in D.
    now apply negb_true_iff in D.
Qed.

Lemma crc_detects_double_bit_errors_witness :
  is_crc_valid (Z.lxor 0x683A (word_part (Z.lxor (2 ^ 3) (2 ^ 17))))
               (Z.lxor 0x7C (crc_part (Z.lxor (2 ^ 3) (2 ^ 17)))) = false.
Proof.
  apply (crc_detects_double_bit_errors 0x683A 0x7C 3 17);
    [simpl; lia | simpl; lia | lia | lia | reflexivity].
Defined.

(** X4. Any error confined to eight consecutive bits of the 24 (a
    burst [b] of at most eight bits, shifted to bit [i]) makes the
    verifier reject an accepted pair. *)
Theorem crc_detects_bursts value crc b i :
  0 <= value < 2 ^ 16 -> 0 <= crc < 2 ^ 8 ->
  1 <= b < 2 ^ 8 -> 0 <= i -> Z.shiftl b i < 2 ^ 24 ->
  is_crc_valid value crc = true ->
  is_crc_valid (Z.lxor value (word_part (Z.shiftl b i)))
               (Z.lxor crc (crc_part (Z.shiftl b i))) = false.
Proof.
  intros Hv Hc Hb Hi He Hok.
  assert (H0 : 0 <= Z.shiftl b i) by (apply Z.shiftl_nonneg; lia).
  assert (Hi24 : i < 24).
  { destruct (Z_lt_le_dec i 24) as [Hlt | Hge]; [exact Hlt|]. exfalso.
    rewrite Z.shiftl_mul_pow2 in He by lia.
    assert (2 ^ 24 <= 2 ^ i) by (apply Z.pow_le_mono_r; lia).
    nia. }
  apply corrupted_invalid; try assumption; [lia|].
  assert (P : bursts_detected i = true).
  { apply (all_below bursts_detected 24); [vm_compute; reflexivity | lia]. }
  unfold bursts_detected in P.
  pose proof (all_from_spec _ 255 1 P b ltac:(change (2 ^ 8) with 256 in Hb; lia)) as D.
  cbv beta in D. apply orb_true_iff in D. destruct D as [D | D].
  - apply Z.leb_le in D. lia.
  - now apply negb_true_iff in D.
Qed.

Lemma crc_detects_bursts_witness :
  is_crc_valid (Z.lxor 0x683A (word_part (Z.shiftl 0xA5 6)))
               (Z.lxor 0x7C (crc_part (Z.shiftl 0xA5 6))) = false.
Proof.
  apply (crc_detects_bursts 0x683A 0x7C 0xA5 6);
    [simpl; lia | simpl; lia | simpl; lia | lia | simpl; lia | reflexivity].
Defined.

End CrcErrors.

Section CrcParity.

Import Crc GF2 Observe.

Lemma parity_fold_lxor (l : list nat) a b :
  fold_right (fun i acc => xorb (Z.testbit (Z.lxor a b) (Z.of_nat i)) acc) false l =
  xorb (fold_right (fun i acc => xorb (Z.testbit a (Z.of_nat i)) acc) false l)
       (fold_right (fun i acc => xorb (Z.testbit b (Z.of_nat i)) acc) false l).
Proof.
  induction l as [|i l IH]; [reflexivity|].
  cbn [fold_right]. rewrite IH, Z.lxor_spec.
  set (x := Z.testbit a (Z.of_nat i)). set (y := Z.testbit b (Z.of_nat i)).
  set (fa := fold_right (fun i acc => xorb (Z.testbit a (Z.of_nat i)) acc) false l).
  set (fb := fold_right (fun i acc => xorb (Z.testbit b (Z.of_nat i)) acc) false l).
  now destruct x, y, fa, fb.
Qed.

Lemma parity24_lxor a b : parity24 (Z.lxor a b) = xorb (parity24 a) (parity24 b).
Proof. apply parity_fold_lxor. Qed.

(** The generator has an even number of terms, wherever it is shifted
    to by the division. *)
Lemma parity24_generator k :
  0 <= k < 16 -> parity24 (Z.shiftl generator k) = false.
Proof.
  intros Hk.
  assert (H : negb (parity24 (Z.shiftl generator k)) = true).
  { revert k Hk.
    apply (all_below (fun k => negb (parity24 (Z.shiftl generator k))) 16).
    vm_compute. reflexivity. }
  now apply negb_true_iff in H.
Qed.

Lemma parity24_cancel k m :
  0 <= k < 16 -> parity24 (cancel generator k m) = parity24 m.
Proof.
  intros Hk. unfold cancel.
  destruct (Z.testbit m (degree generator + k)); [|reflexivity].
  rewrite parity24_lxor, parity24_generator by assumption. apply xorb_false_r.
Qed.

Lemma parity24_mod_from n m :
  (n <= 16)%nat -> parity24 (mod_from n m generator) = parity24 m.
Proof.
  revert m. induction n as [|n IH]; intros m Hn; [reflexivity|].
  rewrite mod_from_S, IH by lia. apply parity24_cancel. lia.
Qed.

(** X5. Every pair the verifier accepts has an even number of one bits
    among its 24, so flipping an odd number of bits of an accepted pair
    is always detected. *)
Theorem crc_detects_odd_errors value crc e :
  0 <= value < 2 ^ 16 -> 0 <= crc < 2 ^ 8 -> 0 <= e < 2 ^ 24 ->
  is_crc_valid value crc = true ->
  parity24 (value * 256 + crc) = false /\
  (parity24 e = true ->
   is_crc_valid (Z.lxor value (word_part e)) (Z.lxor crc (crc_part e)) = false).
Proof.
  intros Hv Hc He Hok.
  assert (Even : forall v c, 0 <= v < 2 ^ 16 -> 0 <= c < 2 ^ 8 ->
                             is_crc_valid v c = true -> parity24 (v * 256 + c) = false).
  { intros v c Hv' Hc' V. apply valid_iff in V.
    rewrite crc_row_mod_from, lor_concat in V by lia.
    rewrite <- (parity24_mod_from 16) by lia. now rewrite V. }
  split; [now apply Even|].
  intros Odd. destruct (pattern_parts e He) as (Hw & Hp & Ee).
  rewrite is_crc_valid_lxor by assumption.
  destruct (is_crc_valid (word_part e) (crc_part e)) eqn:V; [|reflexivity].
  apply Even in V; try assumption. rewrite Ee in V. congruence.
Qed.

Lemma crc_detects_odd_errors_witness :
  parity24 (0x683A * 256 + 0x7C) = false /\
  is_crc_valid (Z.lxor 0x683A (word_part 0x010207))
               (Z.lxor 0x7C (crc_part 0x010207)) = false.
Proof.
  destruct (crc_detects_odd_errors 0x683A 0x7C 0x010207) as [H1 H2];
    [simpl; lia | simpl; lia | simpl; lia | reflexivity |].
  split; [exact H1 | apply H2; reflexivity].
Defined.

End CrcParity.

(** ** The user register *)

(** Split on every call and test that is left. *)
Ltac all_cases := repeat first [any_call | split_eqb].

(** Evaluate what is read off the trace of the run. *)
Ltac observe := repeat name_events.

Section RegisterAccess.

Import Observe.

Context {B : Type} (h : hal B).

Lemma read_user_register_range s :
  0 <= fst (htu21d_read_user_register h s) < 2 ^ 8.
Proof.
  expose; crunch. all_cases; try (simpl; lia).
  unfold stored. apply wrap_range. lia.
Qed.

(** X6. [htu21d_read_user_register] returns 0 whenever a command link
    cannot be set up or the back end reports a status other than
    [ESP_OK], for the command transaction or for the read of the byte:
    a failure cannot be told from a register that holds 0. *)
Theorem read_user_register_failure_returns_zero s :
  register_read_fails h s -> fst (htu21d_read_user_register h s) = 0.
Proof.
  intros [ [b1 H1]
         | ret rx b2 (b1 & H1 & H2) Hne
         | rx b2 (b1 & H1 & H2) (b3 & H3)
         | rx b2 ret rx' b4 (b1 & H1 & H2) (b3 & H3 & H4) Hne ];
    expose; crunch.
  - known_call H1. reflexivity.
  - known_call H1. known_call H2. not_ok Hne.
    now destruct (ret =? ESP_OK).
  - known_call H1. known_call H2. is_ok.
    known_call H3. reflexivity.
  - known_call H1. known_call H2. is_ok.
    known_call H3. known_call H4. not_ok Hne.
    now destruct (ret =? ESP_OK).
Qed.

(** X7. When both transactions succeed, [htu21d_read_user_register]
    returns the byte the sensor answered; the bus has seen the
    read-register command and a one-byte read, with no wait in between. *)
Theorem read_user_register_success s v rx b' :
  register_read_succeeds h s v rx b' -> 0 <= v < 2 ^ 8 ->
  fst (htu21d_read_user_register h s) = v /\
  bus (snd (htu21d_read_user_register h s)) = b' /\
  timeline (events_since s (snd (htu21d_read_user_register h s))) =
    [Txn (txn_command READ_USER_REG); Txn (txn_read 1)].
Proof.
  intros (b2 & (b1 & H1 & H2) & (b3 & H3 & H4)) Hv.
  expose; crunch.
  known_call H1. known_call H2. is_ok.
  known_call H3. known_call H4. is_ok.
  repeat split.
  - unfold stored. cbn [nth]. now apply wrap_small.
  - observe. reflexivity.
Qed.

(** X8. Without memory for a command link, the two functions of the
    write path return [HTU21D_ERR_FAIL], the status they also give for
    a transfer that was not acknowledged, and nothing reaches the bus. *)
Theorem write_path_without_memory s value :
  refuses h (bus s) ->
  fst (htu21d_write_user_register h value s) = HTU21D_ERR_FAIL /\
  timeline (events_since s (snd (htu21d_write_user_register h value s))) = [] /\
  fst (htu21d_soft_reset h s) = HTU21D_ERR_FAIL /\
  timeline (events_since s (snd (htu21d_soft_reset h s))) = [].
Proof.
  intros [b1 H1]. repeat split; expose; crunch; known_call H1;
    try reflexivity; observe; reflexivity.
Qed.

(** X9. When its transaction succeeds, [htu21d_write_user_register]
    returns [HTU21D_ERR_OK] and the bus has seen one transaction: the
    address, the write-register command and the low eight bits of the
    value. *)
Theorem write_user_register_success s value rx b' :
  answers h (_port s) (txn_write_reg value) (bus s) ESP_OK rx b' ->
  fst (htu21d_write_user_register h value s) = HTU21D_ERR_OK /\
  bus (snd (htu21d_write_user_register h value s)) = b' /\
  timeline (events_since s (snd (htu21d_write_user_register h value s))) =
    [Txn (txn_write_reg value)] /\
  register_writes (events_since s (snd (htu21d_write_user_register h value s))) =
    [Word.u8 value].
Proof.
  intros (b1 & H1 & H2). expose; crunch.
  known_call H1. known_call H2.
  repeat split; observe; reflexivity.
Qed.

End RegisterAccess.

(** ** Resolution: what is read and what is written *)

Lemma u8_land x : Word.u8 x = Z.land x 0xFF.
Proof.
  unfold Word.u8, Word.wrap. change 0xFF with (Z.ones 8).
  now rewrite Z.land_ones by lia.
Qed.

Lemma resolution_bits_only x : In (Z.land (Z.land x 0x81) 0xFF) [0x00; 0x01; 0x80; 0x81].
Proof.
  rewrite <- Z.land_assoc. change (Z.land 0x81 0xFF) with (Z.land 0xFF 0x81).
  rewrite Z.land_assoc, <- u8_land.
  assert (R : 0 <= Word.u8 x < 256) by (apply (wrap_range 8); lia).
  assert (H : existsb (Z.eqb (Z.land (Word.u8 x) 0x81)) [0x00; 0x01; 0x80; 0x81] = true).
  { revert R. generalize (Word.u8 x). intros y Hy. revert y Hy.
    apply (all_below
             (fun y => existsb (Z.eqb (Z.land y 0x81)) [0x00; 0x01; 0x80; 0x81]) 256).
    vm_compute. reflexivity. }
  apply existsb_exists in H. destruct H as (r & Hin & E).
  apply Z.eqb_eq in E. now rewrite E.
Qed.

(** Bytes without a bit set in the mask [0x7E]. *)
Lemma land_81_7E x : Z.land (Z.land x 0x81) 0x7E = 0.
Proof.
  rewrite <- Z.land_assoc. change (Z.land 0x81 0x7E) with 0. apply Z.land_0_r.
Qed.

Lemma masked_u8 x : Z.land x 0x7E = 0 -> Z.land (Word.u8 x) 0x7E = 0.
Proof.
  intros H. rewrite u8_land, <- Z.land_assoc.
  change (Z.land 0xFF 0x7E) with 0x7E. exact H.
Qed.

Lemma masked_lor a b m :
  Z.land a m = 0 -> Z.land b m = 0 -> Z.land (Z.lor a b) m = 0.
Proof. intros Ha Hb. now rewrite Z.land_lor_distr_l, Ha, Hb. Qed.

Section ResolutionExtras.

Import Observe.

Context {B : Type} (h : hal B).

(** X10. Whatever the back end does, [htu21d_get_resolution] returns
    one of the four encodings 0x00, 0x01, 0x80, 0x81; after a failed
    register read that is 0x00, the encoding of the default resolution. *)
Theorem get_resolution_is_an_encoding s :
  In (fst (htu21d_get_resolution h s)) [0x00; 0x01; 0x80; 0x81] /\
  (register_read_fails h s -> fst (htu21d_get_resolution h s) = 0x00).
Proof.
  assert (E : fst (htu21d_get_resolution h s) =
              Word.u8 (Z.land (fst (htu21d_read_user_register h s)) 0x81)).
  { unfold htu21d_get_resolution, bind, pure.
    now destruct (htu21d_read_user_register h s). }
  rewrite E. split.
  - rewrite u8_land. apply resolution_bits_only.
  - intros F.
    assert (Z0 : fst (htu21d_read_user_register h s) = 0).
    { destruct F as [ [b1 H1]
                    | ret rx b2 (b1 & H1 & H2) Hne
                    | rx b2 (b1 & H1 & H2) (b3 & H3)
                    | rx b2 ret rx' b4 (b1 & H1 & H2) (b3 & H3 & H4) Hne ];
        expose; crunch.
      - known_call H1. reflexivity.
      - known_call H1. known_call H2. not_ok Hne. now destruct (ret =? ESP_OK).
      - known_call H1. known_call H2. is_ok. known_call H3. reflexivity.
      - known_call H1. known_call H2. is_ok. known_call H3. known_call H4.
        not_ok Hne. now destruct (ret =? ESP_OK). }
    rewrite Z0. reflexivity.
Qed.

(** X11. [htu21d_set_resolution] does not notice that its register
    read failed: it takes the register for 0, goes on to write
    [resolution & 0x81], and returns the status of that write. *)
Theorem set_resolution_ignores_read_failure resolution s :
  register_read_fails h s -> 0 <= resolution < 2 ^ 8 ->
  htu21d_set_resolution h resolution s =
  htu21d_write_user_register h (Z.land resolution 0x81)
    (snd (htu21d_read_user_register h s)).
Proof.
  intros F Hr.
  assert (Z0 : fst (htu21d_read_user_register h s) = 0).
  { destruct F as [ [b1 H1]
                  | ret rx b2 (b1 & H1 & H2) Hne
                  | rx b2 (b1 & H1 & H2) (b3 & H3)
                  | rx b2 ret rx' b4 (b1 & H1 & H2) (b3 & H3 & H4) Hne ];
      expose; crunch.
    - known_call H1. reflexivity.
    - known_call H1. known_call H2. not_ok Hne. now destruct (ret =? ESP_OK).
    - known_call H1. known_call H2. is_ok. known_call H3. reflexivity.
    - known_call H1. known_call H2. is_ok. known_call H3. known_call H4.
      not_ok Hne. now destruct (ret =? ESP_OK). }
  unfold htu21d_set_resolution, bind.
  destruct (htu21d_read_user_register h s) as [reg s']. cbn [fst snd] in *. subst reg.
  change (Word.u8 (Z.land 0 129)) with 0. rewrite Z.lor_0_l.
  unfold Word.u8.
  rewrite !(wrap_small 8 (Z.land resolution 129)) by (apply land_mask_range; lia).
  reflexivity.
Qed.

(** X12. Whatever the back end does and whatever resolution is asked
    for, the byte [htu21d_set_resolution] writes to the user register
    has bits 6 to 1 clear: the heater and reserved bits are never kept. *)
Theorem set_resolution_clears_other_bits resolution s :
  Forall (fun v => Z.land v 0x7E = 0)
    (register_writes (events_since s (snd (htu21d_set_resolution h resolution s)))).
Proof.
  expose; expose; crunch. all_cases; observe;
    cbn [register_writes transactions rev app flat_map];
    try (constructor; fail).
  all: unfold master_stop, master_write_byte, master_start;
    cbn [app payload flat_map tl];
    change (Word.u8 WRITE_USER_REG =? WRITE_USER_REG) with true; cbv iota;
    cbn [app]; repeat constructor.
  all: repeat first [apply masked_u8 | apply masked_lor | apply land_81_7E].
Qed.

End ResolutionExtras.

(** ** Soft reset and measurement: what the bus sees, and when *)

Section Timing.

Import Observe.

Context {B : Type} (h : hal B).

(** X13. When the soft-reset transaction succeeds, [htu21d_soft_reset]
    returns [HTU21D_ERR_OK] after one transaction, the soft-reset command,
    followed by one wait of 15 ms. *)
Theorem soft_reset_success s rx b' :
  answers h (_port s) (txn_command SOFT_RESET) (bus s) ESP_OK rx b' ->
  fst (htu21d_soft_reset h s) = HTU21D_ERR_OK /\
  timeline (events_since s (snd (htu21d_soft_reset h s))) =
    [Txn (txn_command SOFT_RESET); Wait (pdMS_TO_TICKS h 15)] /\
  bus (snd (htu21d_soft_reset h s)) = vTaskDelay h (pdMS_TO_TICKS h 15) b'.
Proof.
  intros (b1 & H1 & H2). expose; crunch.
  known_call H1. known_call H2.
  repeat split; observe; reflexivity.
Qed.

(** X14. When the soft-reset transaction fails in one of the four
    listed categories, [htu21d_soft_reset] returns without waiting. *)
Theorem soft_reset_failure_skips_delay s ret status rx b' :
  In (ret, status) status_table ->
  answers h (_port s) (txn_command SOFT_RESET) (bus s) ret rx b' ->
  timeline (events_since s (snd (htu21d_soft_reset h s))) =
    [Txn (txn_command SOFT_RESET)] /\
  bus (snd (htu21d_soft_reset h s)) = b'.
Proof.
  intros Hin (b1 & H1 & H2). expose; crunch.
  known_call H1. known_call H2.
  cbn in Hin. destruct Hin as [E | [E | [E | [E | []]]]];
    inversion E; subst; split; observe; reflexivity.
Qed.

(** X15. When the command transaction of [read_value] does not go
    through, the sensor is not read: there is no wait and no second
    transaction. *)
Theorem read_value_stops_after_failed_command command s :
  command_fails h command s ->
  timeline (events_since s (snd (read_value h command s))) = [] \/
  timeline (events_since s (snd (read_value h command s))) =
    [Txn (txn_command command)].
Proof.
  intros [ [b1 H1] | (ret & rx & b2 & (b1 & H1 & H2) & Hne) ]; expose; crunch.
  - left. known_call H1. observe. reflexivity.
  - right. known_call H1. known_call H2. not_ok Hne.
    destruct (ret =? ESP_OK); crunch; observe; reflexivity.
Qed.

(** X16. When both transactions of [read_value] succeed, the bus has
    seen the command, then one wait of 50 ms, then the read of three
    bytes, whether the checksum verifies or not. *)
Theorem read_value_success_timeline command s msb lsb crc :
  read_succeeds h command s msb lsb crc ->
  timeline (events_since s (snd (read_value h command s))) =
    [Txn (txn_command command); Wait (50 / portTICK_PERIOD_MS h); Txn (txn_read 3)].
Proof.
  intros (rx & b2 & b4 & (b1 & H1 & H2) & (b3 & H3 & H4)).
  expose; crunch.
  known_call H1. known_call H2. is_ok.
  known_call H3. known_call H4. is_ok.
  match goal with
  | |- context [Crc.is_crc_valid ?v ?c] => destruct (Crc.is_crc_valid v c)
  end; crunch; observe; reflexivity.
Qed.

End Timing.

(** ** Initialisation: failures, and the port *)

Section InitExtras.

Import Observe.

Context {B : Type} (h : hal B).

(** X17. When the controller cannot be configured, [htu21d_init]
    returns [HTU21D_ERR_CONFIG]; the driver is not installed and nothing
    reaches the bus. *)
Theorem init_config_failure port sda_pin scl_pin sda_pullup scl_pullup s ret b' :
  config_fails h port sda_pin scl_pin sda_pullup scl_pullup (bus s) ret b' ->
  let run := htu21d_init h port sda_pin scl_pin sda_pullup scl_pullup s in
  fst run = HTU21D_ERR_CONFIG /\
  setup_calls (events_since s (snd run)) = 1%nat /\
  timeline (events_since s (snd run)) = [].
Proof.
  intros (H1 & Hne) run. subst run. expose; crunch.
  known_call H1. not_ok Hne.
  repeat split; observe; reflexivity.
Qed.

(** X18. When the driver cannot be installed, [htu21d_init] returns
    [HTU21D_ERR_INSTALL] and nothing reaches the bus, the presence probe
    included. *)
Theorem init_install_failure port sda_pin scl_pin sda_pullup scl_pullup s ret b' :
  install_fails h port sda_pin scl_pin sda_pullup scl_pullup (bus s) ret b' ->
  let run := htu21d_init h port sda_pin scl_pin sda_pullup scl_pullup s in
  fst run = HTU21D_ERR_INSTALL /\
  timeline (events_since s (snd run)) = [].
Proof.
  intros (b1 & H1 & H2 & Hne) run. subst run. expose; crunch.
  known_call H1. is_ok. known_call H2. not_ok Hne.
  repeat split; observe; reflexivity.
Qed.

(** X19. [htu21d_init] records the port it is given before anything
    can fail: whatever its outcome, the driver's port is then [port], and
    every transaction of the initialisation itself went to [port]. *)
Theorem init_sets_port port sda_pin scl_pin sda_pullup scl_pullup s :
  let run := htu21d_init h port sda_pin scl_pin sda_pullup scl_pullup s in
  _port (snd run) = port /\
  Forall (eq port) (ports (events_since s (snd run))).
Proof.
  intros run. subst run. expose; crunch.
  any_call. split_eqb; [| split; [reflexivity | observe; constructor]].
  any_call. split_eqb; [| split; [reflexivity | observe; constructor]].
  any_call; [| split; [reflexivity | observe; constructor]].
  any_call. split_eqb; [| split; [reflexivity | observe; repeat constructor]].
  expose; crunch.
  any_call; [| split; [reflexivity | observe; repeat constructor]].
  any_call.
  repeat split_eqb; (split; [reflexivity | observe; repeat constructor]).
Qed.

(** X20. The other functions leave the port as it is and run every one
    of their transactions on it. *)
Theorem driver_keeps_port s command resolution :
  (_port (snd (read_value h command s)) = _port s /\
   Forall (eq (_port s)) (ports (events_since s (snd (read_value h command s))))) /\
  (_port (snd (htu21d_soft_reset h s)) = _port s /\
   Forall (eq (_port s)) (ports (events_since s (snd (htu21d_soft_reset h s))))) /\
  (_port (snd (htu21d_get_resolution h s)) = _port s /\
   Forall (eq (_port s))
     (ports (events_since s (snd (htu21d_get_resolution h s))))) /\
  (_port (snd (htu21d_set_resolution h resolution s)) = _port s /\
   Forall (eq (_port s))
     (ports (events_since s (snd (htu21d_set_resolution h resolution s))))).
Proof.
  repeat split; expose; expose; crunch; all_cases;
    try match goal with
        | |- context [Crc.is_crc_valid ?v ?c] => destruct (Crc.is_crc_valid v c); crunch
        end;
    try reflexivity; observe; repeat constructor.
Qed.

(** X21. When the bus is set up, the probe is answered and the soft
    reset goes through, [htu21d_init] returns [HTU21D_ERR_OK]; the bus
    has seen the probe, the soft-reset command and the 15 ms wait, in
    this order. *)
Theorem init_success port sda_pin scl_pin sda_pullup scl_pullup s rx b1 rx' b' :
  probe_answers h port sda_pin scl_pin sda_pullup scl_pullup (bus s) ESP_OK rx b1 ->
  answers h port (txn_command SOFT_RESET) b1 ESP_OK rx' b' ->
  let run := htu21d_init h port sda_pin scl_pin sda_pullup scl_pullup s in
  fst run = HTU21D_ERR_OK /\
  timeline (events_since s (snd run)) =
    [Txn txn_probe; Txn (txn_command SOFT_RESET); Wait (pdMS_TO_TICKS h 15)].
Proof.
  intros (c1 & c2 & H1 & H2 & (c3 & H3 & H4)) (c4 & H5 & H6) run. subst run.
  expose; crunch.
  known_call H1. is_ok. known_call H2. is_ok. known_call H3. known_call H4. is_ok.
  expose; crunch.
  known_call H5. known_call H6.
  repeat split; observe; reflexivity.
Qed.

End InitExtras.

(** ** The readings and the helper functions *)

Lemma f_same_true x y : Ieee.f_same x y = true -> x = y.
Proof.
  destruct x as [s | s | | s m e], y as [s' | s' | | s' m' e']; cbn;
    try discriminate; try reflexivity.
  - intros E. apply Bool.eqb_prop in E. now subst.
  - intros E. apply Bool.eqb_prop in E. now subst.
  - intros E. apply andb_true_iff in E. destruct E as [E E3].
    apply andb_true_iff in E. destruct E as [E1 E2].
    apply Bool.eqb_prop in E1. apply Pos.eqb_eq in E2. apply Z.eqb_eq in E3.
    now subst.
Qed.

Lemma readings_are_in_range k :
  1 <= k < 16384 -> Observe.reading_in_range k = true.
Proof.
  intros Hk.
  apply (all_from_spec Observe.reading_in_range (Z.to_nat 16383) 1).
  - vm_compute. reflexivity.
  - lia.
Qed.

Section ReadingsExtras.

Import Observe Helpers.

Context {B : Type} (h : hal B).

Lemma read_temperature_state s :
  snd (htu21d_read_temperature h s) = snd (read_value h TRIGGER_TEMP_MEASURE_NOHOLD s).
Proof.
  unfold htu21d_read_temperature, bind, pure.
  destruct (read_value h TRIGGER_TEMP_MEASURE_NOHOLD s) as [raw s']. cbn [snd].
  now destruct (raw =? 0).
Qed.

Lemma read_humidity_state s :
  snd (htu21d_read_humidity h s) = snd (read_value h TRIGGER_HUMD_MEASURE_NOHOLD s).
Proof.
  unfold htu21d_read_humidity, bind, pure.
  destruct (read_value h TRIGGER_HUMD_MEASURE_NOHOLD s) as [raw s']. cbn [snd].
  now destruct (raw =? 0).
Qed.

(** X22. A value returned by a public read function is either -999 or
    lies strictly between the formula's value at raw 0 and 129 degrees
    (119 %RH for the humidity); -999 itself lies outside these ranges. *)
Theorem readings_in_range_or_failed s :
  (fst (htu21d_read_temperature h s) = read_failed \/
   f_between (temperature_of_raw 0) (Ieee.f_of_int 129)
             (fst (htu21d_read_temperature h s)) = true) /\
  (fst (htu21d_read_humidity h s) = read_failed \/
   f_between (humidity_of_raw 0) (Ieee.f_of_int 119)
             (fst (htu21d_read_humidity h s)) = true) /\
  f_between (temperature_of_raw 0) (Ieee.f_of_int 129) read_failed = false /\
  f_between (humidity_of_raw 0) (Ieee.f_of_int 119) read_failed = false.
Proof.
  rewrite read_temperature_value, read_humidity_value.
  destruct (read_value_quad h TRIGGER_TEMP_MEASURE_NOHOLD s) as (kt & Hkt & ->).
  destruct (read_value_quad h TRIGGER_HUMD_MEASURE_NOHOLD s) as (ku & Hku & ->).
  split; [|split; [|split]].
  - destruct (Z.eqb_spec (4 * kt) 0) as [E | Hne]; [now left | right].
    pose proof (readings_are_in_range kt ltac:(lia)) as R.
    unfold reading_in_range in R. apply andb_true_iff in R. apply R.
  - destruct (Z.eqb_spec (4 * ku) 0) as [E | Hne]; [now left | right].
    pose proof (readings_are_in_range ku ltac:(lia)) as R.
    unfold reading_in_range in R. apply andb_true_iff in R. apply R.
  - vm_compute. reflexivity.
  - vm_compute. reflexivity.
Qed.

(** X23. Whatever the back end does, a public read function puts
    nothing on the bus but its own trigger command and the read of
    three bytes: it never writes the user register or resets the sensor. *)
Theorem reads_only_measure s :
  Forall (fun ops => is_measurement_txn TRIGGER_TEMP_MEASURE_NOHOLD ops = true)
    (transactions (events_since s (snd (htu21d_read_temperature h s)))) /\
  Forall (fun ops => is_measurement_txn TRIGGER_HUMD_MEASURE_NOHOLD ops = true)
    (transactions (events_since s (snd (htu21d_read_humidity h s)))).
Proof.
  rewrite read_temperature_state, read_humidity_state.
  split; expose; crunch; all_cases;
    try match goal with
        | |- context [Crc.is_crc_valid ?v ?c] => destruct (Crc.is_crc_valid v c); crunch
        end;
    observe; repeat constructor.
Qed.

(** X24. [celsius_to_fahrenheit] is exact on the multiples of 5 degrees
    from -1000 to 1000: at 5 k degrees it returns 9 k + 32. *)
Theorem celsius_to_fahrenheit_exact k :
  -200 <= k <= 200 ->
  celsius_to_fahrenheit (Ieee.f_of_int (5 * k)) = Ieee.f_of_int (9 * k + 32).
Proof.
  intros Hk. apply f_same_true.
  apply (all_from_spec fahrenheit_exact (Z.to_nat 401) (-200)).
  - vm_compute. reflexivity.
  - lia.
Qed.

Lemma celsius_to_fahrenheit_exact_witness :
  celsius_to_fahrenheit (Ieee.f_of_int (5 * 20)) = Ieee.f_of_int (9 * 20 + 32).
Proof. apply (celsius_to_fahrenheit_exact 20). lia. Defined.

(** X25. At the reference temperature of 25 degrees the compensation
    changes nothing: [htu21_compute_compensated_humidity] returns the
    relative humidity it is given, whatever that is. *)
Theorem compensated_humidity_at_reference relative_humidity :
  htu21_compute_compensated_humidity (f_lit 25 1) relative_humidity
  = relative_humidity.
Proof.
  unfold htu21_compute_compensated_humidity.
  replace (f_mul (f_sub (f_lit 25 1) (f_lit 25 1)) HTU21_TEMPERATURE_COEFFICIENT)
    with (S754_zero true) by (vm_compute; reflexivity).
  destruct relative_humidity as [[|] | [|] | | s m e]; reflexivity.
Qed.

End ReadingsExtras.

(** ** Further runs on the simulated sensor *)

Section Runs.

Import Observe Bench.

Lemma read_user_register_failure_returns_zero_witness :
  fst (htu21d_read_user_register sim (faulty ESP_ERR_TIMEOUT)) = 0.
Proof.
  apply read_user_register_failure_returns_zero.
  eapply (reg_fails_command sim _ ESP_ERR_TIMEOUT).
  - sim_answers.
  - discriminate.
Defined.

Lemma read_user_register_success_witness :
  fst (htu21d_read_user_register sim (holding 0x83)) = 0x83 /\
  timeline (events_since (holding 0x83)
              (snd (htu21d_read_user_register sim (holding 0x83)))) =
    [Txn (txn_command READ_USER_REG); Txn (txn_read 1)].
Proof.
  edestruct (read_user_register_success sim (holding 0x83) 0x83) as (H1 & _ & H3).
  - unfold register_read_succeeds. eexists. split; sim_answers.
  - simpl; lia.
  - split; [exact H1 | exact H3].
Defined.

Lemma write_path_without_memory_witness :
  fst (htu21d_write_user_register sim 0x81 out_of_memory) = HTU21D_ERR_FAIL /\
  timeline (events_since out_of_memory
              (snd (htu21d_write_user_register sim 0x81 out_of_memory))) = [] /\
  fst (htu21d_soft_reset sim out_of_memory) = HTU21D_ERR_FAIL /\
  timeline (events_since out_of_memory
              (snd (htu21d_soft_reset sim out_of_memory))) = [].
Proof. apply write_path_without_memory. sim_refuses. Defined.

Lemma write_user_register_success_witness :
  fst (htu21d_write_user_register sim 0x181 (holding 0x02)) = HTU21D_ERR_OK /\
  user_reg (bus (snd (htu21d_write_user_register sim 0x181 (holding 0x02)))) = 0x81 /\
  register_writes
    (events_since (holding 0x02)
       (snd (htu21d_write_user_register sim 0x181 (holding 0x02)))) = [0x81].
Proof.
  edestruct (write_user_register_success sim (holding 0x02) 0x181) as (H1 & H2 & _ & H4).
  - sim_answers.
  - split; [exact H1|]. split; [rewrite H2; reflexivity | exact H4].
Defined.

Lemma get_resolution_is_an_encoding_witness :
  In (fst (htu21d_get_resolution sim (holding 0x3B))) [0x00; 0x01; 0x80; 0x81] /\
  fst (htu21d_get_resolution sim (faulty ESP_FAIL)) = 0x00.
Proof.
  split.
  - apply (get_resolution_is_an_encoding sim (holding 0x3B)).
  - apply (get_resolution_is_an_encoding sim (faulty ESP_FAIL)).
    eapply (reg_fails_command sim _ ESP_FAIL); [sim_answers | discriminate].
Defined.

Lemma set_resolution_ignores_read_failure_witness :
  htu21d_set_resolution sim 0x83 (faulty ESP_FAIL) =
  htu21d_write_user_register sim (Z.land 0x83 0x81)
    (snd (htu21d_read_user_register sim (faulty ESP_FAIL))) /\
  fst (htu21d_set_resolution sim 0x83 (faulty ESP_FAIL)) = HTU21D_ERR_OK.
Proof.
  split; [|reflexivity].
  apply set_resolution_ignores_read_failure.
  - eapply (reg_fails_command sim _ ESP_FAIL); [sim_answers | discriminate].
  - simpl; lia.
Defined.

Lemma soft_reset_success_witness :
  fst (htu21d_soft_reset sim (holding 0x87)) = HTU21D_ERR_OK /\
  timeline (events_since (holding 0x87) (snd (htu21d_soft_reset sim (holding 0x87)))) =
    [Txn (txn_command SOFT_RESET); Wait (pdMS_TO_TICKS sim 15)] /\
  user_reg (bus (snd (htu21d_soft_reset sim (holding 0x87)))) = 0x06.
Proof.
  edestruct (soft_reset_success sim (holding 0x87)) as (H1 & H2 & H3).
  - sim_answers.
  - split; [exact H1|]. split; [exact H2 | rewrite H3; reflexivity].
Defined.

Lemma soft_reset_failure_skips_delay_witness :
  timeline (events_since (faulty ESP_ERR_TIMEOUT)
              (snd (htu21d_soft_reset sim (faulty ESP_ERR_TIMEOUT)))) =
    [Txn (txn_command SOFT_RESET)].
Proof.
  edestruct (soft_reset_failure_skips_delay sim (faulty ESP_ERR_TIMEOUT)
               ESP_ERR_TIMEOUT HTU21D_ERR_TIMEOUT) as (H1 & _).
  - simpl. tauto.
  - sim_answers.
  - exact H1.
Defined.

Lemma read_value_stops_after_failed_command_witness :
  timeline (events_since (faulty ESP_FAIL)
              (snd (read_value sim TRIGGER_TEMP_MEASURE_NOHOLD (faulty ESP_FAIL)))) = [] \/
  timeline (events_since (faulty ESP_FAIL)
              (snd (read_value sim TRIGGER_TEMP_MEASURE_NOHOLD (faulty ESP_FAIL)))) =
    [Txn (txn_command TRIGGER_TEMP_MEASURE_NOHOLD)].
Proof.
  apply read_value_stops_after_failed_command.
  right. exists ESP_FAIL. do 2 eexists. split; [sim_answers | discriminate].
Defined.

Lemma read_value_success_timeline_witness :
  timeline (events_since (boot (fresh 0x68 0x3A 0x7C))
              (snd (read_value sim TRIGGER_HUMD_MEASURE_NOHOLD
                      (boot (fresh 0x68 0x3A 0x7C))))) =
    [Txn (txn_command TRIGGER_HUMD_MEASURE_NOHOLD);
     Wait (50 / portTICK_PERIOD_MS sim); Txn (txn_read 3)].
Proof.
  apply (read_value_success_timeline sim TRIGGER_HUMD_MEASURE_NOHOLD
           (boot (fresh 0x68 0x3A 0x7C)) 0x68 0x3A 0x7C).
  unfold read_succeeds. do 3 eexists. split; sim_answers.
Defined.

Lemma init_config_failure_witness :
  fst (htu21d_init (with_setup ESP_FAIL ESP_OK) 1 21 22 1 1 (holding 0x02))
    = HTU21D_ERR_CONFIG /\
  setup_calls
    (events_since (holding 0x02)
       (snd (htu21d_init (with_setup ESP_FAIL ESP_OK) 1 21 22 1 1 (holding 0x02))))
    = 1%nat /\
  timeline
    (events_since (holding 0x02)
       (snd (htu21d_init (with_setup ESP_FAIL ESP_OK) 1 21 22 1 1 (holding 0x02))))
    = [].
Proof.
  eapply (init_config_failure (with_setup ESP_FAIL ESP_OK) 1 21 22 1 1
            (holding 0x02) ESP_FAIL).
  unfold config_fails. split; [reflexivity | discriminate].
Defined.

Lemma init_install_failure_witness :
  fst (htu21d_init (with_setup ESP_OK ESP_FAIL) 1 21 22 1 1 (holding 0x02))
    = HTU21D_ERR_INSTALL /\
  timeline
    (events_since (holding 0x02)
       (snd (htu21d_init (with_setup ESP_OK ESP_FAIL) 1 21 22 1 1 (holding 0x02))))
    = [].
Proof.
  eapply (init_install_failure (with_setup ESP_OK ESP_FAIL) 1 21 22 1 1
            (holding 0x02) ESP_FAIL).
  unfold install_fails. eexists. repeat split; try reflexivity. discriminate.
Defined.

Lemma init_success_witness :
  fst (htu21d_init sim 1 21 22 1 1 (holding 0x02)) = HTU21D_ERR_OK /\
  timeline (events_since (holding 0x02)
              (snd (htu21d_init sim 1 21 22 1 1 (holding 0x02)))) =
    [Txn txn_probe; Txn (txn_command SOFT_RESET); Wait (pdMS_TO_TICKS sim 15)].
Proof.
  eapply (init_success sim 1 21 22 1 1 (holding 0x02)).
  - unfold probe_answers. do 2 eexists. repeat split; try reflexivity. sim_answers.
  - sim_answers.
Defined.

(** [htu21d_set_resolution] on a register with the heater bit set: the
    byte written has lost it. *)
Example set_resolution_drops_heater_bit :
  register_writes
    (events_since (holding 0x06) (snd (htu21d_set_resolution sim 0x01 (holding 0x06))))
  = [0x01] /\
  user_reg (bus (snd (htu21d_set_resolution sim 0x01 (holding 0x06)))) = 0x01.
Proof. split; vm_compute; reflexivity. Qed.

(** A failed initialisation on another port redirects what follows. *)
Example failed_init_moves_port :
  ports (events_since
           (snd (htu21d_init (with_setup ESP_FAIL ESP_OK) 1 21 22 1 1 (holding 0x02)))
           (snd (htu21d_soft_reset sim
                   (snd (htu21d_init (with_setup ESP_FAIL ESP_OK) 1 21 22 1 1
                           (holding 0x02))))))
  = [1].
Proof. vm_compute. reflexivity. Qed.

End Runs.
